(** * resize_pngs: transparent-border trimming and the backup-then-mutate batch

    A shallow embedding of [src/resize_pngs.py].

    - [trim_transparent_edges] is embedded over images given as a grid of
      pixels (rows of a NumPy array of shape (H, W, 4) after
      [img.convert('RGBA')]).
    - [resize_replace_and_backup] is embedded as a state-passing function
      over a file system (a finite map from paths to nodes) that also
      collects the lines the script prints.
    - Paths are lists of components, without links.  The file system fails
      for what the directory tree shows; beyond that, a [platform] says
      which moves of a regular file the operating system refuses and which
      file names the console cannot print.  The console takes the script's
      own text and the folder names the caller passed in. *)

From Stdlib Require Import ZArith Lia Ascii.
From stdpp Require Import base option list gmap strings.

Open Scope Z_scope.
Open Scope nat_scope.

(** ** Exceptions and results *)

(** The Python exceptions that the modelled calls can raise. *)
Inductive exn :=
  | ValueError
  | IndexError
  | FileNotFoundError
  | FileExistsError
  | IsADirectoryError
  | NotADirectoryError
  | ShutilError
  | UnidentifiedImageError
  | OSError
  | UnicodeEncodeError
  | OverflowError.

Inductive result (A : Type) :=
  | Ok (a : A)
  | Raise (e : exn).
Arguments Ok {A} a.
Arguments Raise {A} e.

Definition rbind {A B : Type} (r : result A) (k : A → result B) : result B :=
  match r with
  | Ok a => k a
  | Raise e => Raise e
  end.

Notation "'try' x := r 'in' k" := (rbind r (fun x => k))
  (at level 10, x name, r at level 100, k at level 200, only parsing).

(** Indexing [arr[0]] / [arr[-1]] of a one-dimensional array. *)
Definition index_first (l : list nat) : result nat :=
  match head l with Some i => Ok i | None => Raise IndexError end.

Definition index_last (l : list nat) : result nat :=
  match last l with Some i => Ok i | None => Raise IndexError end.

(** ** Images *)

(** A decoded Pillow image: its size and its pixel rows (row-major, as
    [np.array(img)] lays them out).  The pixel type is left open: it is the
    pixel of whatever mode the file decoded to. *)
Record Image (pixel : Type) := mkImage {
  width : nat;
  height : nat;
  pixels : list (list pixel)
}.
Arguments mkImage {pixel} _ _ _.
Arguments width {pixel} _.
Arguments height {pixel} _.
Arguments pixels {pixel} _.

(** The grid really is [height] rows of [width] pixels. *)
Definition wf_image {pixel} (img : Image pixel) : Prop :=
  length (pixels img) = height img ∧
  Forall (λ row, length row = width img) (pixels img).

Section Imaging.
Context {pixel : Type}.

(** [alpha p] is channel 3 of [p] once converted to RGBA
    ([np.array(img.convert('RGBA'))[:, :, 3]]). *)
Variable alpha : pixel → Z.

(** The value Pillow's [crop] fills in outside the source image. *)
Variable blank : pixel.

Definition getpixel (img : Image pixel) (x y : nat) : pixel :=
  nth x (nth y (pixels img) []) blank.

(** [alpha_channel = np_img[:, :, 3]] *)
Definition alpha_channel (img : Image pixel) : list (list Z) :=
  map (map alpha) (pixels img).

(** [alpha_channel > 0] *)
Definition gt0 (m : list (list Z)) : list (list bool) :=
  map (map (λ a, (0 <? a)%Z)) m.

(** [np.any(m, axis=1)]: one boolean per row. *)
Definition np_any_axis1 (m : list (list bool)) : list bool :=
  map (existsb id) m.

(** [np.any(m, axis=0)]: one boolean per column, [w] columns. *)
Definition np_any_axis0 (w : nat) (m : list (list bool)) : list bool :=
  map (λ j, existsb (λ row, nth j row false) m) (seq 0 w).

(** [np.where(v)[0]]: the indices at which [v] is true, ascending. *)
Fixpoint np_where_from (i : nat) (v : list bool) : list nat :=
  match v with
  | [] => []
  | b :: v' =>
      if b then i :: np_where_from (S i) v' else np_where_from (S i) v'
  end.

Definition np_where (v : list bool) : list nat := np_where_from 0 v.

(** [arr.any()] on an integer array: is some element non-zero? *)
Definition ndarray_any (arr : list nat) : bool :=
  existsb (λ i, negb (i =? 0)) arr.

(** [img.crop((left, upper, right, lower))] *)
Definition crop (img : Image pixel) (box : nat * nat * nat * nat)
  : result (Image pixel) :=
  let '(left_, upper, right_, lower) := box in
  if right_ <? left_ then Raise ValueError
  else if lower <? upper then Raise ValueError
  else Ok (mkImage (right_ - left_) (lower - upper)
             (map (λ y, map (λ x, getpixel img x y) (seq left_ (right_ - left_)))
                  (seq upper (lower - upper)))).

Definition non_transparent_rows (img : Image pixel) : list nat :=
  np_where (np_any_axis1 (gt0 (alpha_channel img))).

Definition non_transparent_cols (img : Image pixel) : list nat :=
  np_where (np_any_axis0 (width img) (gt0 (alpha_channel img))).

Definition trim_transparent_edges (img : Image pixel) : result (Image pixel) :=
  let non_transparent_rows := non_transparent_rows img in
  let non_transparent_cols := non_transparent_cols img in
  if negb (ndarray_any non_transparent_rows && ndarray_any non_transparent_cols)
  then Ok img
  else
    try top := index_first non_transparent_rows in
    try bottom := index_last non_transparent_rows in
    try left_ := index_first non_transparent_cols in
    try right_ := index_last non_transparent_cols in
    let bbox := (left_, top, right_ + 1, bottom + 1) in
    crop img bbox.

(** BorderTrimmer in the specification's words: the image itself when no
    row or no column qualifies, otherwise the sub-image between the
    smallest and the largest qualifying row and column index. *)
Definition trim_spec (img : Image pixel) : result (Image pixel) :=
  match non_transparent_rows img, non_transparent_cols img with
  | row0 :: _, col0 :: _ =>
      let top := foldr Nat.min row0 (non_transparent_rows img) in
      let bottom := foldr Nat.max 0 (non_transparent_rows img) in
      let left_ := foldr Nat.min col0 (non_transparent_cols img) in
      let right_ := foldr Nat.max 0 (non_transparent_cols img) in
      crop img (left_, top, right_ + 1, bottom + 1)
  | _, _ => Ok img
  end.

(** Where the returned image sits inside the input: the crop offset, or
    the origin when the input is returned as it is. *)
Definition trim_offset (img : Image pixel) : nat * nat :=
  if negb (ndarray_any (non_transparent_rows img)
           && ndarray_any (non_transparent_cols img))
  then (0, 0)
  else (default 0 (head (non_transparent_cols img)),
        default 0 (head (non_transparent_rows img))).

(** The condition under which line 29 does not return early. *)
Definition passes_guard (img : Image pixel) : bool :=
  ndarray_any (non_transparent_rows img)
  && ndarray_any (non_transparent_cols img).

End Imaging.

(** The pixel stored at column [x] of row [y], if the grid has one. *)
Definition pixel_at {pixel} (img : Image pixel) (x y : nat) : option pixel :=
  pixels img !! y ≫= (.!! x).

(** The same image with every pixel passed through [f]. *)
Definition map_image {pixel pixel'} (f : pixel → pixel') (img : Image pixel)
  : Image pixel' :=
  mkImage (width img) (height img) (map (map f) (pixels img)).

(** Some pixel of the image has alpha above 0 and satisfies [where_]. *)
Definition has_content {pixel} (alpha : pixel → Z) (img : Image pixel)
    (where_ : nat → nat → Prop) : Prop :=
  ∃ x y p, pixel_at img x y = Some p ∧ (0 < alpha p)%Z ∧ where_ x y.

(** ** The file system and the console *)

(** A path is the list of its components; [os.path.join(folder, name)]
    appends one component.  The empty path is the current directory. *)
Abbreviation path := (list string).

Inductive node :=
  | File (content : list Byte.byte)
  | Dir.

#[global] Instance byte_eq_dec : EqDecision Byte.byte.
Proof.
  intros a b. destruct (Byte.eqb a b) eqn:E.
  - left. by apply Byte.byte_dec_bl.
  - right. intros ->. by rewrite Byte.byte_dec_lb in E.
Defined.

#[global] Instance node_eq_dec : EqDecision node.
Proof. solve_decision. Defined.

(** The lines [resize_replace_and_backup] prints, by their role. *)
Inductive line :=
  | ErrTargetMissing (folder : path)
  | InfoBackupCreated (folder : path)
  | InfoNoPng (folder : path)
  | InfoCount (n : nat)
  | ErrListing (e : exn)
  | FileDone (filename : string)
  | FileError (filename : string) (e : exn)
  | AllDone.

(** What the routine can observe and change: the directory tree, keyed by
    path, and the lines printed so far. *)
Record world := mkWorld {
  disk : gmap path node;
  console : list line
}.

(** Statements: they read and change the world and either return a value
    or raise.  What was changed before an exception stays changed. *)
Definition io (A : Type) : Type := world → result A * world.

Definition ret {A} (a : A) : io A := λ w, (Ok a, w).

Definition raise {A} (e : exn) : io A := λ w, (Raise e, w).

Definition bind {A B} (c : io A) (k : A → io B) : io B :=
  λ w, match c w with
       | (Ok a, w1) => k a w1
       | (Raise e, w1) => (Raise e, w1)
       end.

Notation "'let*' x := c 'in' k" := (bind c (fun x => k))
  (at level 10, x name, c at level 100, k at level 200, only parsing).
Notation "c >>> k" := (bind c (fun _ => k))
  (at level 65, right associativity, only parsing).

(** [try: body except Exception as e: handler(e)] *)
Definition try_except {A} (body : io A) (handler : exn → io A) : io A :=
  λ w, match body w with
       | (Ok a, w1) => (Ok a, w1)
       | (Raise e, w1) => handler e w1
       end.

Definition lift {A} (r : result A) : io A := λ w, (r, w).

(** [print] of a line made of the script's own text and of what the caller
    passed in (the folders, the count): the console takes it. *)
Definition print (l : line) : io unit :=
  λ w, (Ok tt, mkWorld (disk w) (console w ++ [l])).

(** The line lines 96 and 99 print for a file, from how lines 81-94 ended. *)
Definition report (filename : string) (r : result unit) : line :=
  match r with
  | Ok _ => FileDone filename
  | Raise e => FileError filename e
  end.

Definition read_disk : io (gmap path node) := λ w, (Ok (disk w), w).

Definition write_disk (d : gmap path node) : io unit :=
  λ w, (Ok tt, mkWorld d (console w)).

(** [for a in l: body(a)] *)
Fixpoint for_each {A} (l : list A) (body : A → io unit) : io unit :=
  match l with
  | [] => ret tt
  | a :: l' => body a >>> for_each l' body
  end.

(** *** Paths and strings *)

Definition os_path_join (folder : path) (name : string) : path :=
  folder ++ [name].

Definition dirname (p : path) : path := removelast p.

Definition basename (p : path) : string := List.last p ""%string.

(** [relative_to folder p] is what remains of [p] below [folder]. *)
Fixpoint relative_to (folder p : path) : option path :=
  match folder, p with
  | [], _ => Some p
  | a :: folder', b :: p' =>
      if decide (a = b) then relative_to folder' p' else None
  | _ :: _, [] => None
  end.

Definition entry_name (folder p : path) : option string :=
  match relative_to folder p with
  | Some [name] => Some name
  | _ => None
  end.

Definition ascii_lower (c : ascii) : ascii :=
  let n := nat_of_ascii c in
  if (65 <=? n) && (n <=? 90) then ascii_of_nat (n + 32) else c.

(** [s.lower()] *)
Fixpoint str_lower (s : string) : string :=
  match s with
  | EmptyString => EmptyString
  | String c s' => String (ascii_lower c) (str_lower s')
  end.

(** [s.endswith(suffix)] *)
Definition str_endswith (s suffix : string) : bool :=
  (String.length suffix <=? String.length s) &&
  String.eqb
    (String.substring (String.length s - String.length suffix)
               (String.length suffix) s)
    suffix.

Definition is_png (f : string) : bool := str_endswith (str_lower f) ".png".

Definition is_dot (c : ascii) : bool := Ascii.eqb c "."%char.

(** [name.rfind('.')], counting from [i]. *)
Fixpoint rfind_dot_from (i : nat) (name : string) (found : option nat)
  : option nat :=
  match name with
  | EmptyString => found
  | String c name' =>
      rfind_dot_from (S i) name' (if is_dot c then Some i else found)
  end.

Fixpoint all_dots (s : string) : bool :=
  match s with
  | EmptyString => true
  | String c s' => is_dot c && all_dots s'
  end.

(** [os.path.splitext] on a name without separators: the extension starts
    at the last dot, unless nothing but dots comes before that dot. *)
Definition splitext (name : string) : string * string :=
  match rfind_dot_from 0 name None with
  | Some dotIndex =>
      let root := String.substring 0 dotIndex name in
      if all_dots root then (name, EmptyString)
      else (root, String.substring dotIndex (String.length name - dotIndex) name)
  | None => (name, EmptyString)
  end.

(** *** The [os] and [shutil] calls *)

Definition node_at (d : gmap path node) (p : path) : option node :=
  match p with
  | [] => Some Dir
  | _ => d !! p
  end.

Definition isdir (d : gmap path node) (p : path) : bool :=
  match node_at d p with
  | Some Dir => true
  | _ => false
  end.

Definition exists_ (d : gmap path node) (p : path) : bool :=
  match node_at d p with
  | Some _ => true
  | None => false
  end.

Definition os_path_isdir (p : path) : io bool :=
  λ w, (Ok (isdir (disk w) p), w).

Definition os_path_exists (p : path) : io bool :=
  λ w, (Ok (exists_ (disk w) p), w).

Definition os_mkdir (p : path) : io unit :=
  let* d := read_disk in
  match node_at d p with
  | Some _ => raise FileExistsError
  | None =>
      match node_at d (dirname p) with
      | Some Dir => write_disk (<[p := Dir]> d)
      | Some (File _) => raise NotADirectoryError
      | None => raise FileNotFoundError
      end
  end.

(** [os.makedirs(name)]: the missing ancestors first, then [name] itself;
    the recursion is on the number of components left. *)
Fixpoint makedirs_rec (n : nat) (name : path) : io unit :=
  match n with
  | 0 => os_mkdir name
  | S n' =>
      let head := dirname name in
      let* head_exists := os_path_exists head in
      (if negb (bool_decide (head = [])) && negb head_exists
       then try_except (makedirs_rec n' head)
                       (λ e, match e with
                             | FileExistsError => ret tt
                             | _ => raise e
                             end)
       else ret tt) >>>
      os_mkdir name
  end.

Definition os_makedirs (name : path) : io unit :=
  makedirs_rec (length name) name.

(** [os.listdir(folder)]: the names of the immediate entries. *)
Definition os_listdir (folder : path) : io (list string) :=
  let* d := read_disk in
  match node_at d folder with
  | Some Dir => ret (omap (entry_name folder) (map fst (map_to_list d)))
  | Some (File _) => raise NotADirectoryError
  | None => raise FileNotFoundError
  end.

(** Moving a directory takes everything below it along. *)
Definition rename_tree (src dst : path) (d : gmap path node)
  : gmap path node :=
  list_to_map
    (omap (λ kv, (λ rest, (dst ++ rest, kv.2)) <$> relative_to src kv.1)
          (map_to_list d))
  ∪ filter (λ kv, relative_to src kv.1 = None) d.

(** What the platform decides and the directory tree does not show: which
    file names the console can encode, and which operations of a move of a
    regular file the operating system refuses (the backup folder on another
    file system, permissions, a full disk).  A copy that fails may leave
    bytes at the destination.  Everywhere else the file system fails only
    for what the directory tree shows. *)
Record platform := mkPlatform {
  out_encodes : string → bool;
  rename_refused : path → path → bool;
  copy_fault :
    path → path → list Byte.byte → option (exn * option (list Byte.byte));
  unlink_fault : path → option exn
}.

(** [print] of a line that shows a file name read from the folder: it
    raises [UnicodeEncodeError] when the console cannot encode the name, and
    nothing is printed then. *)
Definition print_name (S : platform) (filename : string) (l : line)
  : io unit :=
  if out_encodes S filename then print l else raise UnicodeEncodeError.

(** [os.rename(src, dst)]: a regular file replaces a regular file at the
    destination; a directory goes along with everything below it, not below
    itself and only onto nothing or onto an empty directory.  Every
    exception it raises is an [OSError]. *)
Definition os_rename (S : platform) (src dst : path) : io unit :=
  let* d := read_disk in
  match node_at d src with
  | None => raise FileNotFoundError
  | Some (File content) =>
      if rename_refused S src dst then raise OSError
      else
        match node_at d dst with
        | Some Dir => raise IsADirectoryError
        | _ =>
            if isdir d (dirname dst)
            then write_disk (<[dst := File content]> (delete src d))
            else raise FileNotFoundError
        end
  | Some Dir =>
      if bool_decide (src = dst) then ret tt
      else if bool_decide (is_Some (relative_to src dst)) then raise OSError
      else
        match node_at d dst with
        | Some (File _) => raise NotADirectoryError
        | Some Dir =>
            if bool_decide
                 (omap (entry_name dst) (map fst (map_to_list d)) = [])
            then write_disk (rename_tree src dst d)
            else raise OSError
        | None =>
            if isdir d (dirname dst)
            then write_disk (rename_tree src dst d)
            else raise FileNotFoundError
        end
  end.

(** [shutil.copy2(src, dst)] of a regular file: the source is opened for
    reading, then the destination for writing, which empties a file that is
    already there. *)
Definition copy2 (S : platform) (src dst : path) : io unit :=
  let* d := read_disk in
  let dst' := if isdir d dst then os_path_join dst (basename src) else dst in
  match node_at d src with
  | None => raise FileNotFoundError
  | Some Dir => raise IsADirectoryError
  | Some (File content) =>
      if bool_decide (src = dst') then raise ShutilError
      else
        match node_at d dst' with
        | Some Dir => raise IsADirectoryError
        | _ =>
            if isdir d (dirname dst') then
              match copy_fault S src dst' content with
              | Some (e, Some left_behind) =>
                  write_disk (<[dst' := File left_behind]> d) >>> raise e
              | Some (e, None) => raise e
              | None => write_disk (<[dst' := File content]> d)
              end
            else raise FileNotFoundError
        end
  end.

(** [os.unlink(p)] *)
Definition os_unlink (S : platform) (p : path) : io unit :=
  let* d := read_disk in
  match node_at d p with
  | Some (File _) =>
      match unlink_fault S p with
      | Some e => raise e
      | None => write_disk (delete p d)
      end
  | Some Dir => raise IsADirectoryError
  | None => raise FileNotFoundError
  end.

(** Lines 824-847 of [shutil.move]: [os.rename], and when that raises an
    [OSError], copy and delete: [copytree] and [rmtree] for a directory that
    is not moved below itself, [copy2] and [os.unlink] for a regular file.
    [copytree] starts with [os.makedirs(real_dst)]; what it copies and
    [rmtree] removes is taken as one step. *)
Definition move_to (S : platform) (src dst real_dst : path) : io path :=
  try_except (os_rename S src real_dst)
    (λ _,
       let* d := read_disk in
       if isdir d src then
         if bool_decide (is_Some (relative_to src dst)) then raise ShutilError
         else
           os_makedirs real_dst >>>
           let* d' := read_disk in
           write_disk (rename_tree src real_dst d')
       else copy2 S src real_dst >>> os_unlink S src) >>>
  ret real_dst.

(** Lines 810-820: where [shutil.move] puts the source, which is inside
    the destination when that is a directory. *)
Definition real_dst_of (d : gmap path node) (src dst : path) : path :=
  if isdir d dst then os_path_join dst (basename src) else dst.

(** [shutil.move(src, dst)] *)
Definition shutil_move (S : platform) (src dst : path) : io path :=
  let* dst_is_dir := os_path_isdir dst in
  if dst_is_dir then
    if bool_decide (src = dst) then ret dst
    else
      let real_dst := os_path_join dst (basename src) in
      let* taken := os_path_exists real_dst in
      if taken then raise ShutilError else move_to S src dst real_dst
  else move_to S src dst dst.

(** *** Pillow: decoding, resampling, encoding *)

(** What the script runs on and cannot see into.  From the imaging
    library: the alpha channel of a pixel once converted to RGBA, the fill
    pixel of [crop], the decoder behind [Image.open] and the loading of the
    pixel data, the PNG encoder behind [Image.save] (the bytes it wrote and
    the exception it ended with, if any), and the Lanczos kernel: the pixel
    at (x, y) of the image resampled to a given size.  And the platform. *)
Record imaging (pixel : Type) := mkImaging {
  px_alpha : pixel → Z;
  px_blank : pixel;
  im_decode : list Byte.byte → result (Image pixel);
  im_encode : Image pixel → list Byte.byte * option exn;
  im_lanczos : Image pixel → nat * nat → nat → nat → pixel;
  im_platform : platform
}.
Arguments mkImaging {pixel} _ _ _ _ _ _.
Arguments px_alpha {pixel} _ _.
Arguments px_blank {pixel} _.
Arguments im_decode {pixel} _ _.
Arguments im_encode {pixel} _ _.
Arguments im_lanczos {pixel} _ _ _ _ _.
Arguments im_platform {pixel} _.

(** The range of a C [int], in which Pillow takes a size. *)
Definition c_int (z : Z) : bool :=
  ((-2147483648 <=? z) && (z <=? 2147483647))%Z.

(** The format [Image.save] takes from the file name: the names the routine
    saves to have passed the filter, so their extension is ".png" up to
    case, or there is none; without a known extension [save] raises before
    it opens the file. *)
Definition pil_format (filename : string) : result unit :=
  if String.eqb (str_lower (splitext filename).2) ".png"
  then Ok tt
  else Raise ValueError.

Section Batch.
Context {pixel : Type} (P : imaging pixel).

(** [Image.open(p)] together with the loading of the pixel data, which
    Pillow puts off until line 19 asks for it; both are inside the [try] of
    line 79, and nothing is written between them. *)
Definition image_open (p : path) : io (Image pixel) :=
  let* d := read_disk in
  match node_at d p with
  | Some (File content) => lift (im_decode P content)
  | Some Dir => raise IsADirectoryError
  | None => raise FileNotFoundError
  end.

(** [img.resize((w, h), Image.Resampling.LANCZOS)]: an image that already
    has the requested size is copied; a size that is no C [int] and a size
    below 1 are refused. *)
Definition resize (img : Image pixel) (size : Z * Z) : result (Image pixel) :=
  let '(w, h) := size in
  if bool_decide ((Z.of_nat (width img), Z.of_nat (height img)) = (w, h))
  then Ok img
  else if negb (c_int w && c_int h) then Raise OverflowError
  else if ((w <? 1) || (h <? 1))%Z then Raise ValueError
  else
    let nw := Z.to_nat w in
    let nh := Z.to_nat h in
    Ok (mkImage nw nh
          (map (λ y, map (λ x, im_lanczos P img (nw, nh) x y) (seq 0 nw))
               (seq 0 nh))).

(** [img.save(p)]: the format is taken from the name; the file is opened
    for writing, which empties a file that is already there, and the encoder
    writes into it; when the encoder raises, a file that [save] itself
    created is removed again. *)
Definition image_save (img : Image pixel) (p : path) : io unit :=
  lift (pil_format (basename p)) >>>
  let* d := read_disk in
  match node_at d p with
  | Some Dir => raise IsADirectoryError
  | Some (File _) =>
      let '(written, failure) := im_encode P img in
      write_disk (<[p := File written]> d) >>>
      match failure with
      | Some e => raise e
      | None => ret tt
      end
  | None =>
      if isdir d (dirname p) then
        let '(written, failure) := im_encode P img in
        match failure with
        | Some e => raise e
        | None => write_disk (<[p := File written]> d)
        end
      else raise FileNotFoundError
  end.

Variables target_folder backup_folder : path.
Variables target_width target_height : Z.

(** Lines 84-94: open the backed-up file, trim, resize, save to the
    original path. *)
Definition transform_backup (original_path backup_path : path) : io unit :=
  let* img := image_open backup_path in
  let* trimmed_img :=
    lift (trim_transparent_edges (px_alpha P) (px_blank P) img) in
  let* resized_img :=
    lift (resize trimmed_img (target_width, target_height)) in
  image_save resized_img original_path.

(** Lines 81-94: what the [try] of line 79 does before it prints. *)
Definition attempt (filename : string) : io unit :=
  let original_path := os_path_join target_folder filename in
  let backup_path := os_path_join backup_folder filename in
  shutil_move (im_platform P) original_path backup_path >>>
  transform_backup original_path backup_path.

(** Lines 76-99: the body of the loop over [png_files]. *)
Definition process_file (filename : string) : io unit :=
  try_except
    (attempt filename >>>
     print_name (im_platform P) filename (FileDone filename))
    (λ e, print_name (im_platform P) filename (FileError filename e)).

(** Lines 59-61. *)
Definition ensure_backup_folder : io unit :=
  let* backup_ok := os_path_isdir backup_folder in
  if negb backup_ok
  then os_makedirs backup_folder >>> print (InfoBackupCreated backup_folder)
  else ret tt.

(** Lines 64-72: [None] stands for the [return] inside the [try]. *)
Definition list_png_files : io (option (list string)) :=
  try_except
    (let* names := os_listdir target_folder in
     let png_files := List.filter is_png names in
     if bool_decide (png_files = [])
     then print (InfoNoPng target_folder) >>> ret None
     else print (InfoCount (length png_files)) >>> ret (Some png_files))
    (λ e, print (ErrListing e) >>> ret None).

Definition resize_replace_and_backup : io unit :=
  let* target_ok := os_path_isdir target_folder in
  if negb target_ok then print (ErrTargetMissing target_folder)
  else
    ensure_backup_folder >>>
    let* listing := list_png_files in
    match listing with
    | None => ret tt
    | Some png_files =>
        for_each png_files process_file >>> print AllDone
    end.

End Batch.

(** Decoding, trimming and resizing, without the file system: what the
    steps between the move and the save compute from the bytes. *)
Definition pipeline {pixel} (P : imaging pixel) (target_width target_height : Z)
    (content : list Byte.byte) : result (Image pixel) :=
  try img := im_decode P content in
  try trimmed_img :=
    trim_transparent_edges (px_alpha P) (px_blank P) img in
  resize P trimmed_img (target_width, target_height).

(** ** What a file's processing can leave behind *)

Section Outcomes.
Context {pixel : Type} (P : imaging pixel).
Context (target_folder backup_folder : path).
Context (target_width target_height : Z).

(** The original path holds the encoding of the transformed image: of what
    decoding, trimming and resizing make of [content]; it has the target
    size. *)
Definition replaced
    (filename : string) (content : list Byte.byte) (d : gmap path node)
  : Prop :=
  ∃ rz written,
    pipeline P target_width target_height content = Ok rz
    ∧ im_encode P rz = (written, None)
    ∧ Z.of_nat (width rz) = target_width
    ∧ Z.of_nat (height rz) = target_height
    ∧ d !! os_path_join target_folder filename = Some (File written).

(** The backup path holds the original bytes and the original path holds
    the transformed image. *)
Definition backed_up_and_replaced
    (filename : string) (content : list Byte.byte) (d : gmap path node)
  : Prop :=
  d !! os_path_join backup_folder filename = Some (File content)
  ∧ replaced filename content d.

(** The original bytes are in the backup folder, at the backup path or,
    when that path was a directory, under the same name inside it, and
    nothing is at the original path. *)
Definition backed_up_slot_empty
    (filename : string) (content : list Byte.byte) (d : gmap path node)
  : Prop :=
  d !! os_path_join target_folder filename = None
  ∧ (d !! os_path_join backup_folder filename = Some (File content)
     ∨ d !! os_path_join (os_path_join backup_folder filename) filename
       = Some (File content)).

(** The move gave up while copying: between [d] and [d'] nothing happened
    but that bytes were written where the file was to go; the original is
    still at the original path. *)
Definition copy_left_behind
    (filename : string) (content : list Byte.byte) (d d' : gmap path node)
  : Prop :=
  d' !! os_path_join target_folder filename = Some (File content)
  ∧ ∃ real_dst bytes,
      (real_dst = os_path_join backup_folder filename
       ∨ real_dst
         = os_path_join (os_path_join backup_folder filename) filename)
      ∧ d' = <[real_dst := File bytes]> d.

(** A file that every step accepts: the platform renames it, its name gives
    the format, its bytes decode, the target size is valid, the encoder
    succeeds with [written], and no directory sits at its backup path. *)
Definition healthy
    (d : gmap path node) (filename : string)
    (content written : list Byte.byte) : Prop :=
  d !! os_path_join target_folder filename = Some (File content)
  ∧ isdir d (os_path_join backup_folder filename) = false
  ∧ rename_refused (im_platform P)
      (os_path_join target_folder filename)
      (os_path_join backup_folder filename) = false
  ∧ pil_format filename = Ok tt
  ∧ ∃ rz, pipeline P target_width target_height content = Ok rz
          ∧ im_encode P rz = (written, None).

(** The lines the loop prints for [names], one per name and in order, when
    the console takes them all: each tells how lines 81-94 ended for that
    name, in the world the names before it left. *)
Fixpoint batch_lines (names : list string) (w : world) : list line :=
  match names with
  | [] => []
  | filename :: names' =>
      report filename
        (attempt P target_folder backup_folder target_width target_height
           filename w).1
      :: batch_lines names'
           (process_file P target_folder backup_folder
              target_width target_height filename w).2
  end.

End Outcomes.

(** Between two directory trees nothing happened but, possibly, the creation
    of directories: every entry of the first is in the second as it was,
    and every new entry is a directory. *)
Definition only_adds_dirs (d d1 : gmap path node) : Prop :=
  ∀ q, d1 !! q = d !! q ∨ (d !! q = None ∧ d1 !! q = Some Dir).

(** The same, and the new directories are [folder] or lie on the way to
    it. *)
Definition only_creates_folder (folder : path) (d d1 : gmap path node)
  : Prop :=
  ∀ q, d1 !! q = d !! q
       ∨ (d !! q = None ∧ d1 !! q = Some Dir ∧ q `prefix_of` folder).

(** The folder is there, and so are the directories on the way to it. *)
Definition folder_reachable (d : gmap path node) (folder : path) : Prop :=
  ∀ p, p `prefix_of` folder → isdir d p = true.

(** The names [list_png_files] keeps, read off the directory tree. *)
Definition png_entries (d : gmap path node) (folder : path) : list string :=
  List.filter is_png (omap (entry_name folder) (map fst (map_to_list d))).

(** A concrete pixel type for examples: 8-bit RGBA. *)
Record rgba := RGBA { chan_r : Z; chan_g : Z; chan_b : Z; chan_a : Z }.

Definition clear : rgba := RGBA 0 0 0 0.
Definition solid : rgba := RGBA 255 0 0 255.

(** A second one: the four inks of a CMYK image, as a JPEG file can hold
    it. *)
Record cmyk := CMYK { ink_c : Z; ink_m : Z; ink_y : Z; ink_k : Z }.

(** A small image codec to run the batch on: a magic byte, the width and
    the height (that many bytes 01, closed by a byte 00), then four bytes
    per pixel. *)
Definition byte_to_Z (b : Byte.byte) : Z := Z.of_N (Byte.to_N b).

Definition Z_to_byte (z : Z) : Byte.byte :=
  default Byte.x00 (Byte.of_N (Z.to_N (z mod 256))).

Definition write_count (n : nat) : list Byte.byte :=
  repeat Byte.x01 n ++ [Byte.x00].

Fixpoint read_count (bs : list Byte.byte) : option (nat * list Byte.byte) :=
  match bs with
  | Byte.x00 :: bs' => Some (0, bs')
  | Byte.x01 :: bs' =>
      match read_count bs' with
      | Some (n, rest) => Some (S n, rest)
      | None => None
      end
  | _ => None
  end.

Section Codec.
Context {pixel : Type} (four : Z → Z → Z → Z → pixel).

Fixpoint read_row (w : nat) (bs : list Byte.byte)
  : option (list pixel * list Byte.byte) :=
  match w with
  | 0 => Some ([], bs)
  | S w' =>
      match bs with
      | r :: g :: b :: a :: bs' =>
          match read_row w' bs' with
          | Some (row, rest) =>
              Some (four (byte_to_Z r) (byte_to_Z g) (byte_to_Z b) (byte_to_Z a)
                      :: row, rest)
          | None => None
          end
      | _ => None
      end
  end.

Fixpoint read_rows (h w : nat) (bs : list Byte.byte)
  : option (list (list pixel)) :=
  match h with
  | 0 => match bs with [] => Some [] | _ => None end
  | S h' =>
      match read_row w bs with
      | Some (row, rest) =>
          match read_rows h' w rest with
          | Some rows => Some (row :: rows)
          | None => None
          end
      | None => None
      end
  end.

Definition read_image (bs : list Byte.byte) : result (Image pixel) :=
  match read_count bs with
  | Some (nw, rest) =>
      match read_count rest with
      | Some (nh, body) =>
          match read_rows nh nw body with
          | Some rows => Ok (mkImage nw nh rows)
          | None => Raise UnidentifiedImageError
          end
      | None => Raise UnidentifiedImageError
      end
  | None => Raise UnidentifiedImageError
  end.

(** Nearest-sample stand-in for the resampling kernel. *)
Definition nearest (blank : pixel) (img : Image pixel) (size : nat * nat)
    (x y : nat) : pixel :=
  getpixel blank img (x * width img / size.1) (y * height img / size.2).

End Codec.

Definition toy_decode (bs : list Byte.byte) : result (Image rgba) :=
  match bs with
  | Byte.x89 :: bs' => read_image RGBA bs'
  | _ => Raise UnidentifiedImageError
  end.

Definition pixel_bytes (p : rgba) : list Byte.byte :=
  [Z_to_byte (chan_r p); Z_to_byte (chan_g p);
   Z_to_byte (chan_b p); Z_to_byte (chan_a p)].

Definition toy_encode (img : Image rgba) : list Byte.byte * option exn :=
  (Byte.x89 :: write_count (width img) ++ write_count (height img)
     ++ concat (map (λ row, concat (map pixel_bytes row)) (pixels img)),
   None).

Definition toy_resample : Image rgba → nat * nat → nat → nat → rgba :=
  nearest clear.

(** A console that takes ASCII and nothing else; no operation is refused. *)
Fixpoint ascii_only (s : string) : bool :=
  match s with
  | EmptyString => true
  | String c s' => (nat_of_ascii c <? 128) && ascii_only s'
  end.

Definition plain : platform :=
  mkPlatform ascii_only (λ _ _, false) (λ _ _ _, None) (λ _, None).

(** The backup folder on another file system, which is full: a rename is
    refused and a copy stops after two bytes. *)
Definition other_device : platform :=
  mkPlatform ascii_only (λ _ _, true)
    (λ _ _ content, Some (OSError, Some (take 2 content))) (λ _, None).

Definition toy : imaging rgba :=
  mkImaging chan_a clear toy_decode toy_encode toy_resample plain.

Definition toy_other_device : imaging rgba :=
  mkImaging chan_a clear toy_decode toy_encode toy_resample other_device.

(** The same for images in CMYK: [convert('RGBA')] gives every pixel the
    alpha 255, and the PNG encoder refuses the mode before it writes a
    byte. *)
Definition cmyk_decode (bs : list Byte.byte) : result (Image cmyk) :=
  match bs with
  | Byte.xff :: bs' => read_image CMYK bs'
  | _ => Raise UnidentifiedImageError
  end.

Definition cmyk_encode (img : Image cmyk) : list Byte.byte * option exn :=
  ([], Some OSError).

Definition toy_cmyk : imaging cmyk :=
  mkImaging (λ _, 255%Z) (CMYK 0 0 0 0) cmyk_decode cmyk_encode
    (nearest (CMYK 0 0 0 0)) plain.

Definition trim_rgba := trim_transparent_edges chan_a clear.


(** ** Sample inputs *)

(** Content of 2x1 pixels inside a transparent 3x3 canvas. *)
Definition framed : Image rgba :=
  mkImage 3 3 [[clear; clear; clear];
               [clear; solid; solid];
               [clear; clear; clear]].

Definition transparent : Image rgba :=
  mkImage 2 2 [[clear; clear]; [clear; clear]].

(** Content in the top-left pixel only. *)
Definition corner : Image rgba :=
  mkImage 2 2 [[solid; clear]; [clear; clear]].

Definition framed_bytes : list Byte.byte := (toy_encode framed).1.

Definition corrupt_bytes : list Byte.byte := [Byte.x00; Byte.x01].

(** A 2x2 image in CMYK. *)
Definition cmyk_bytes : list Byte.byte :=
  Byte.xff :: write_count 2 ++ write_count 2 ++ repeat Byte.x10 16.

Definition originals : path := ["original_pngs"%string].
Definition used : path := ["used_pngs"%string].

(** A source folder with two good images, a corrupt one and a text file;
    no backup folder yet. *)
Definition three_files : world :=
  mkWorld
    (<[ originals ++ ["a.png"%string] := File framed_bytes ]>
     (<[ originals ++ ["b.PNG"%string] := File corrupt_bytes ]>
      (<[ originals ++ ["c.png"%string] := File framed_bytes ]>
       (<[ originals ++ ["notes.txt"%string] := File corrupt_bytes ]>
        (<[ originals := Dir ]> ∅)))))
    [].

(** The same once the backup folder exists. *)
Definition three_files_ready : world :=
  mkWorld (<[ used := Dir ]> (disk three_files))
          [InfoBackupCreated used].

(** A source folder without any image, and no backup folder. *)
Definition no_images : world :=
  mkWorld
    (<[ originals ++ ["notes.txt"%string] := File corrupt_bytes ]>
     (<[ originals := Dir ]> ∅))
    [].

Definition no_images_ready : world :=
  mkWorld (<[ used := Dir ]> (disk no_images))
          [InfoBackupCreated used].

(** Content everywhere. *)
Definition filled : Image rgba :=
  mkImage 2 2 [[solid; solid]; [solid; solid]].

(** Drop the colour of a pixel, keep its alpha. *)
Definition alpha_only (p : rgba) : rgba := RGBA 0 0 0 (chan_a p).

(** A regular file where the backup folder should be. *)
Definition blocked : world :=
  mkWorld (<[ used := File corrupt_bytes ]> (<[ originals := Dir ]> ∅)) [].

(** A backup of a.png left by an earlier run. *)
Definition second_run : world :=
  mkWorld (<[ used ++ ["a.png"%string] := File corrupt_bytes ]>
             (disk three_files_ready)) [].

(** A directory at the backup path of a.png. *)
Definition directory_in_the_way : world :=
  mkWorld (<[ used ++ ["a.png"%string] := Dir ]> (disk three_files_ready)) [].

(** A directory named like an image, holding a file. *)
Definition directory_entry : world :=
  mkWorld
    (<[ originals ++ ["d.png"; "inner"]%string := File corrupt_bytes ]>
     (<[ originals ++ ["d.png"%string] := Dir ]>
      (<[ used := Dir ]> (<[ originals := Dir ]> ∅)))) [].

(** Nothing at all on disk. *)
Definition bare : world := mkWorld ∅ [].

(** One CMYK image, named like a PNG, in a folder that is used as its own
    backup folder. *)
Definition one_file : world :=
  mkWorld
    (<[ originals ++ ["a.png"%string] := File cmyk_bytes ]>
     (<[ originals := Dir ]> ∅))
    [].

(** A file name with a byte that is no text in any encoding of the
    console. *)
Definition odd_name : string := String (ascii_of_nat 255) ".png".

(** Two good images, one of them under that name; the backup folder is
    there. *)
Definition odd_name_first : world :=
  mkWorld
    (<[ originals ++ [odd_name] := File framed_bytes ]>
     (<[ originals ++ ["a.png"%string] := File framed_bytes ]>
      (<[ used := Dir ]> (<[ originals := Dir ]> ∅))))
    [].

(** A good image whose whole name is the extension. *)
Definition bare_extension : world :=
  mkWorld
    (<[ originals ++ [".png"%string] := File framed_bytes ]>
     (<[ used := Dir ]> (<[ originals := Dir ]> ∅)))
    [].

(** * Facts about the trimming function *)

Example trim_demo :
  trim_rgba (mkImage 3 3 [[clear; clear; clear];
                          [clear; solid; solid];
                          [clear; clear; clear]])
  = Ok (mkImage 2 1 [[solid; solid]]).
Proof. reflexivity. Qed.

Example trim_first_row_demo :
  trim_rgba (mkImage 2 2 [[solid; clear]; [clear; clear]])
  = Ok (mkImage 2 2 [[solid; clear]; [clear; clear]]).
Proof. reflexivity. Qed.


Section WhereFacts.

Lemma np_where_from_lower i v k :
  k ∈ np_where_from i v → i ≤ k.
Proof.
  revert i. induction v as [|b v IH]; intros i; simpl.
  - intros H. inversion H.
  - destruct b.
    + intros [->|H]%elem_of_cons; [lia|]. apply IH in H. lia.
    + intros H. apply IH in H. lia.
Qed.

Lemma elem_of_np_where_from i v k :
  k ∈ np_where_from i v ↔ ∃ j, k = i + j ∧ v !! j = Some true.
Proof.
  revert i. induction v as [|b v IH]; intros i; simpl.
  - split; [intros H; inversion H | intros (j & _ & H); discriminate].
  - assert (Hrec : k ∈ np_where_from (S i) v
                   ↔ ∃ j, k = i + S j ∧ v !! j = Some true).
    { rewrite IH. split; intros (j & -> & Hj); exists j; split; auto; lia. }
    destruct b.
    + rewrite elem_of_cons, Hrec. split.
      * intros [->|(j & -> & Hj)].
        -- exists 0. split; [lia | done].
        -- exists (S j). done.
      * intros ([|j] & -> & Hj).
        -- left. lia.
        -- right. exists j. done.
    + rewrite Hrec. split.
      * intros (j & -> & Hj). exists (S j). done.
      * intros ([|j] & -> & Hj); [discriminate|]. exists j. done.
Qed.

Lemma elem_of_np_where v k : k ∈ np_where v ↔ v !! k = Some true.
Proof.
  unfold np_where. rewrite elem_of_np_where_from. split.
  - intros (j & -> & Hj). done.
  - intros H. exists k. done.
Qed.

(** The first index found is the smallest one. *)
Lemma np_where_from_head i v a :
  head (np_where_from i v) = Some a →
  a ∈ np_where_from i v ∧ ∀ k, k ∈ np_where_from i v → a ≤ k.
Proof.
  revert i. induction v as [|b v IH]; intros i; simpl; [done|].
  destruct b; simpl.
  - intros [= <-]. split; [left|].
    intros k [->|H]%elem_of_cons; [lia|].
    apply np_where_from_lower in H. lia.
  - apply IH.
Qed.

(** The last index found is the largest one. *)
Lemma np_where_from_last i v b :
  last (np_where_from i v) = Some b →
  b ∈ np_where_from i v ∧ ∀ k, k ∈ np_where_from i v → k ≤ b.
Proof.
  revert i. induction v as [|c v IH]; intros i; simpl; [done|].
  destruct c; simpl; [|apply IH].
  destruct (np_where_from (S i) v) as [|k0 rest] eqn:E.
  - simpl. intros [= <-]. split; [left|].
    intros k Hk. apply list_elem_of_singleton in Hk. lia.
  - rewrite last_cons_cons. intros Hl. rewrite <- E in *.
    destruct (IH (S i) Hl) as [Hin Hmax]. split; [by right|].
    intros k [->|Hk]%elem_of_cons; [|by apply Hmax].
    apply np_where_from_lower in Hin. lia.
Qed.

Lemma ndarray_any_nonempty arr : ndarray_any arr = true → arr ≠ [].
Proof. by destruct arr. Qed.

Lemma index_first_nonempty arr :
  arr ≠ [] → ∃ a, head arr = Some a ∧ index_first arr = Ok a.
Proof.
  destruct arr as [|a arr]; [done|]. intros _. by exists a.
Qed.

Lemma index_last_nonempty arr :
  arr ≠ [] → ∃ b, last arr = Some b ∧ index_last arr = Ok b.
Proof.
  intros H. unfold index_last.
  destruct (last arr) as [b|] eqn:E; [by exists b|].
  by apply last_None in E.
Qed.

End WhereFacts.

Lemma lookup_map {A B : Type} (f : A → B) (l : list A) (i : nat) :
  map f l !! i = f <$> (l !! i).
Proof. exact (list_lookup_fmap f l i). Qed.

Section GridFacts.
Context {A : Type}.

Lemma existsb_lookup (f : A → bool) (l : list A) :
  existsb f l = true ↔ ∃ i a, l !! i = Some a ∧ f a = true.
Proof.
  rewrite existsb_exists. split.
  - intros (a & Hin & Hf). apply list_elem_of_In in Hin.
    apply list_elem_of_lookup in Hin as [i Hi]. eauto.
  - intros (i & a & Hi & Hf). exists a. split; [|done].
    apply list_elem_of_In, list_elem_of_lookup. eauto.
Qed.

Lemma nth_lookup_Some (l : list A) (i : nat) (d a : A) :
  l !! i = Some a → nth i l d = a.
Proof. intros H. by rewrite nth_lookup, H. Qed.

Lemma map_nth_seq (l : list A) (d : A) :
  map (λ i, nth i l d) (seq 0 (length l)) = l.
Proof.
  apply list_eq. intros i. rewrite lookup_map.
  destruct (decide (i < length l)) as [Hi|Hi].
  - rewrite lookup_seq_lt by done. simpl.
    destruct (lookup_lt_is_Some_2 l i Hi) as [a Ha].
    by rewrite Ha, (nth_lookup_Some _ _ _ _ Ha).
  - rewrite lookup_seq_ge by lia. simpl.
    symmetry. apply lookup_ge_None. lia.
Qed.

End GridFacts.

Section TrimFacts.
Context {pixel : Type} (alpha : pixel → Z) (blank : pixel).
Implicit Types img t : Image pixel.

Lemma pixel_at_Some img x y p :
  pixel_at img x y = Some p
  ↔ ∃ row, pixels img !! y = Some row ∧ row !! x = Some p.
Proof.
  unfold pixel_at. destruct (pixels img !! y) as [row|]; simpl.
  - split; [eauto|]. by intros (? & [= <-] & ?).
  - split; [done|]. by intros (? & ? & ?).
Qed.

Lemma pixel_at_bounds img x y p :
  wf_image img → pixel_at img x y = Some p →
  x < width img ∧ y < height img.
Proof.
  intros [Hh Hw] (row & Hrow & Hp)%pixel_at_Some. split.
  - rewrite Forall_forall in Hw.
    rewrite <- (Hw row) by (apply list_elem_of_lookup; eauto).
    by apply lookup_lt_Some in Hp.
  - rewrite <- Hh. by apply lookup_lt_Some in Hrow.
Qed.

Lemma pixel_at_getpixel img x y p :
  pixel_at img x y = Some p → getpixel blank img x y = p.
Proof.
  intros (row & Hrow & Hp)%pixel_at_Some. unfold getpixel.
  rewrite (nth_lookup_Some _ _ _ _ Hrow). by apply nth_lookup_Some.
Qed.

Lemma pixel_at_in_bounds img x y :
  wf_image img → x < width img → y < height img →
  pixel_at img x y = Some (getpixel blank img x y).
Proof.
  intros [Hh Hw] Hx Hy. rewrite <- Hh in Hy.
  destruct (lookup_lt_is_Some_2 _ _ Hy) as [row Hrow].
  rewrite Forall_forall in Hw.
  assert (Hlen : length row = width img)
    by (apply Hw, list_elem_of_lookup; eauto).
  rewrite <- Hlen in Hx.
  destruct (lookup_lt_is_Some_2 _ _ Hx) as [p Hp].
  assert (Hat : pixel_at img x y = Some p) by (apply pixel_at_Some; eauto).
  by rewrite (pixel_at_getpixel _ _ _ _ Hat).
Qed.

(** Row [y] is listed exactly when it holds a pixel with alpha above 0. *)
Lemma elem_of_rows img y :
  y ∈ non_transparent_rows alpha img
  ↔ ∃ x p, pixel_at img x y = Some p ∧ (0 < alpha p)%Z.
Proof.
  unfold non_transparent_rows. rewrite elem_of_np_where.
  unfold np_any_axis1, gt0, alpha_channel. rewrite !lookup_map.
  split.
  - destruct (pixels img !! y) as [row|] eqn:Hrow; simpl; [|done].
    intros [= Hex]. apply existsb_lookup in Hex as (x & b & Hb & Hid).
    rewrite !lookup_map in Hb.
    destruct (row !! x) as [p|] eqn:Hp; simpl in Hb; [|done].
    injection Hb as <-. exists x, p. split.
    + apply pixel_at_Some. eauto.
    + unfold id in Hid. by apply Z.ltb_lt.
  - intros (x & p & (row & Hrow & Hp)%pixel_at_Some & Hpos).
    rewrite Hrow. simpl. f_equal. apply existsb_lookup.
    exists x, true. split; [|done].
    rewrite !lookup_map, Hp. simpl. f_equal. by apply Z.ltb_lt.
Qed.

(** Column [x] is listed exactly when it holds a pixel with alpha above 0. *)
Lemma elem_of_cols img x :
  x ∈ non_transparent_cols alpha img
  ↔ x < width img ∧ ∃ y p, pixel_at img x y = Some p ∧ (0 < alpha p)%Z.
Proof.
  unfold non_transparent_cols. rewrite elem_of_np_where.
  unfold np_any_axis0, gt0, alpha_channel. rewrite lookup_map.
  split.
  - destruct (seq 0 (width img) !! x) as [j|] eqn:Hj; simpl; [|done].
    apply lookup_seq in Hj as [-> Hx]. simpl.
    intros [= Hex]. split; [done|].
    apply existsb_lookup in Hex as (y & brow & Hb & Hnth).
    rewrite !lookup_map in Hb.
    destruct (pixels img !! y) as [row|] eqn:Hrow; simpl in Hb; [|done].
    injection Hb as <-.
    rewrite nth_lookup, !lookup_map in Hnth.
    destruct (row !! x) as [p|] eqn:Hp; simpl in Hnth; [|done].
    exists y, p. split.
    + apply pixel_at_Some. eauto.
    + by apply Z.ltb_lt.
  - intros (Hx & y & p & (row & Hrow & Hp)%pixel_at_Some & Hpos).
    rewrite lookup_seq_lt by done. simpl. f_equal.
    apply existsb_lookup.
    exists y, (map (λ a, (0 <? a)%Z) (map alpha row)). split.
    + by rewrite !lookup_map, Hrow.
    + rewrite nth_lookup, !lookup_map, Hp. simpl. by apply Z.ltb_lt.
Qed.

(** *** Cropping *)

Lemma crop_inv img l u r b t :
  crop blank img (l, u, r, b) = Ok t →
  l ≤ r ∧ u ≤ b ∧ width t = r - l ∧ height t = b - u ∧ wf_image t ∧
  ∀ x y, x < r - l → y < b - u →
         pixel_at t x y = Some (getpixel blank img (l + x) (u + y)).
Proof.
  unfold crop.
  destruct (r <? l) eqn:Hrl; [done|].
  destruct (b <? u) eqn:Hbu; [done|].
  apply Nat.ltb_ge in Hrl, Hbu. intros [= <-]. simpl.
  repeat split; try done.
  - simpl. by rewrite length_map, length_seq.
  - simpl. apply Forall_forall. intros row Hrow.
    apply list_elem_of_lookup in Hrow as [i Hi].
    rewrite lookup_map in Hi.
    destruct (seq u (b - u) !! i); simpl in Hi; [|done].
    injection Hi as <-. by rewrite length_map, length_seq.
  - intros x y Hx Hy. unfold pixel_at. simpl.
    rewrite lookup_map, lookup_seq_lt by done. simpl.
    by rewrite lookup_map, lookup_seq_lt.
Qed.

Lemma crop_total img l u r b :
  l ≤ r → u ≤ b → ∃ t, crop blank img (l, u, r, b) = Ok t.
Proof.
  intros Hlr Hub. unfold crop.
  apply Nat.ltb_ge in Hlr, Hub. rewrite Hlr, Hub. eauto.
Qed.

(** Cropping to the whole image gives the image back. *)
Lemma crop_full img :
  wf_image img → crop blank img (0, 0, width img, height img) = Ok img.
Proof.
  intros [Hh Hw]. unfold crop. simpl. rewrite !Nat.sub_0_r.
  destruct img as [w h rows]. simpl in *. do 2 f_equal.
  subst h. apply list_eq. intros y. rewrite lookup_map.
  destruct (decide (y < length rows)) as [Hy|Hy].
  - rewrite lookup_seq_lt by done. simpl.
    destruct (lookup_lt_is_Some_2 _ _ Hy) as [row Hrow].
    rewrite Hrow. f_equal. unfold getpixel. simpl.
    rewrite (nth_lookup_Some _ _ _ _ Hrow).
    rewrite Forall_forall in Hw.
    rewrite <- (Hw row) by (apply list_elem_of_lookup; eauto).
    apply map_nth_seq.
  - rewrite lookup_seq_ge by lia. simpl.
    symmetry. apply lookup_ge_None. lia.
Qed.

(** *** The two ways [trim_transparent_edges] returns *)

Lemma trim_cases img :
  (passes_guard alpha img = false
   ∧ trim_transparent_edges alpha blank img = Ok img
   ∧ trim_offset alpha img = (0, 0))
  ∨ (∃ l u r b,
       passes_guard alpha img = true
       ∧ head (non_transparent_cols alpha img) = Some l
       ∧ last (non_transparent_cols alpha img) = Some r
       ∧ head (non_transparent_rows alpha img) = Some u
       ∧ last (non_transparent_rows alpha img) = Some b
       ∧ trim_transparent_edges alpha blank img
         = crop blank img (l, u, r + 1, b + 1)
       ∧ trim_offset alpha img = (l, u)).
Proof.
  unfold trim_transparent_edges, trim_offset, passes_guard.
  destruct (ndarray_any (non_transparent_rows alpha img)
            && ndarray_any (non_transparent_cols alpha img)) eqn:Hg; simpl.
  - right. apply andb_true_iff in Hg as [Hr Hc].
    apply ndarray_any_nonempty in Hr, Hc.
    destruct (index_first_nonempty _ Hr) as (u & Hu & Eu).
    destruct (index_last_nonempty _ Hr) as (b & Hb & Eb).
    destruct (index_first_nonempty _ Hc) as (l & Hl & El).
    destruct (index_last_nonempty _ Hc) as (r & Hrr & Er).
    exists l, u, r, b. rewrite Eu, Eb, El, Er, Hl, Hu. simpl.
    repeat split; done.
  - by left.
Qed.

(** First and last entries bound every listed index. *)
Lemma rows_bounds img u b y :
  head (non_transparent_rows alpha img) = Some u →
  last (non_transparent_rows alpha img) = Some b →
  y ∈ non_transparent_rows alpha img → u ≤ y ≤ b.
Proof.
  unfold non_transparent_rows, np_where.
  intros [_ Hu]%np_where_from_head [_ Hb]%np_where_from_last Hy.
  split; auto.
Qed.

Lemma cols_bounds img l r x :
  head (non_transparent_cols alpha img) = Some l →
  last (non_transparent_cols alpha img) = Some r →
  x ∈ non_transparent_cols alpha img → l ≤ x ≤ r.
Proof.
  unfold non_transparent_cols, np_where.
  intros [_ Hl]%np_where_from_head [_ Hr]%np_where_from_last Hx.
  split; auto.
Qed.

Lemma head_in_rows img u :
  head (non_transparent_rows alpha img) = Some u →
  u ∈ non_transparent_rows alpha img.
Proof. unfold non_transparent_rows, np_where.
       by intros [? _]%np_where_from_head. Qed.

Lemma last_in_rows img b :
  last (non_transparent_rows alpha img) = Some b →
  b ∈ non_transparent_rows alpha img.
Proof. unfold non_transparent_rows, np_where.
       by intros [? _]%np_where_from_last. Qed.

Lemma head_in_cols img l :
  head (non_transparent_cols alpha img) = Some l →
  l ∈ non_transparent_cols alpha img.
Proof. unfold non_transparent_cols, np_where.
       by intros [? _]%np_where_from_head. Qed.

Lemma last_in_cols img r :
  last (non_transparent_cols alpha img) = Some r →
  r ∈ non_transparent_cols alpha img.
Proof. unfold non_transparent_cols, np_where.
       by intros [? _]%np_where_from_last. Qed.

(** [trim_transparent_edges] always returns an image: neither the
    indexing nor [crop] can raise. *)
Lemma trim_total img : ∃ t, trim_transparent_edges alpha blank img = Ok t.
Proof.
  destruct (trim_cases img)
    as [(_ & H & _)|(l & u & r & b & _ & Hl & Hr & Hu & Hb & H & _)].
  - eauto.
  - rewrite H. apply crop_total.
    + pose proof (cols_bounds _ _ _ _ Hl Hr (last_in_cols _ _ Hr)). lia.
    + pose proof (rows_bounds _ _ _ _ Hu Hb (last_in_rows _ _ Hb)). lia.
Qed.

(** In the cropping branch nothing with alpha above 0 is lost: such a
    pixel lies inside the box and is found in the result, shifted by the
    box origin. *)
Lemma trim_crop_keeps_opaque img l u r b t x y p :
  wf_image img →
  head (non_transparent_cols alpha img) = Some l →
  last (non_transparent_cols alpha img) = Some r →
  head (non_transparent_rows alpha img) = Some u →
  last (non_transparent_rows alpha img) = Some b →
  crop blank img (l, u, r + 1, b + 1) = Ok t →
  pixel_at img x y = Some p → (0 < alpha p)%Z →
  l ≤ x ≤ r ∧ u ≤ y ≤ b ∧ pixel_at t (x - l) (y - u) = Some p.
Proof.
  intros Hwf Hl Hr Hu Hb Hcrop Hat Hpos.
  destruct (pixel_at_bounds _ _ _ _ Hwf Hat) as [Hx Hy].
  assert (Hrow : y ∈ non_transparent_rows alpha img)
    by (apply elem_of_rows; eauto).
  assert (Hcol : x ∈ non_transparent_cols alpha img)
    by (apply elem_of_cols; eauto).
  pose proof (rows_bounds _ _ _ _ Hu Hb Hrow) as Hyb.
  pose proof (cols_bounds _ _ _ _ Hl Hr Hcol) as Hxb.
  repeat split; try lia.
  apply crop_inv in Hcrop as (_ & _ & _ & _ & _ & Hpix).
  rewrite Hpix by lia.
  replace (l + (x - l)) with x by lia. replace (u + (y - u)) with y by lia.
  by rewrite (pixel_at_getpixel _ _ _ _ Hat).
Qed.

(** The result of the cropping branch has content in its first and last
    row and in its first and last column. *)
Lemma trim_crop_tight img l u r b t :
  wf_image img →
  head (non_transparent_cols alpha img) = Some l →
  last (non_transparent_cols alpha img) = Some r →
  head (non_transparent_rows alpha img) = Some u →
  last (non_transparent_rows alpha img) = Some b →
  crop blank img (l, u, r + 1, b + 1) = Ok t →
  0 ∈ non_transparent_rows alpha t ∧ b - u ∈ non_transparent_rows alpha t ∧
  0 ∈ non_transparent_cols alpha t ∧ r - l ∈ non_transparent_cols alpha t.
Proof.
  intros Hwf Hl Hr Hu Hb Hcrop.
  pose proof (crop_inv _ _ _ _ _ _ Hcrop) as (_ & _ & Hw & _ & _ & _).
  pose proof (head_in_rows _ _ Hu) as (xu & pu & Hatu & Hposu)%elem_of_rows.
  pose proof (last_in_rows _ _ Hb) as (xb & pb & Hatb & Hposb)%elem_of_rows.
  pose proof (head_in_cols _ _ Hl)
    as (_ & yl & pl & Hatl & Hposl)%elem_of_cols.
  pose proof (last_in_cols _ _ Hr)
    as (_ & yr & pr & Hatr & Hposr)%elem_of_cols.
  destruct (trim_crop_keeps_opaque _ _ _ _ _ _ _ _ _
              Hwf Hl Hr Hu Hb Hcrop Hatu Hposu) as (? & ? & Hu').
  destruct (trim_crop_keeps_opaque _ _ _ _ _ _ _ _ _
              Hwf Hl Hr Hu Hb Hcrop Hatb Hposb) as (? & ? & Hb').
  destruct (trim_crop_keeps_opaque _ _ _ _ _ _ _ _ _
              Hwf Hl Hr Hu Hb Hcrop Hatl Hposl) as (? & ? & Hl').
  destruct (trim_crop_keeps_opaque _ _ _ _ _ _ _ _ _
              Hwf Hl Hr Hu Hb Hcrop Hatr Hposr) as (? & ? & Hr').
  rewrite Nat.sub_diag in Hu', Hl'.
  repeat split.
  - apply elem_of_rows. eauto.
  - apply elem_of_rows. eauto.
  - apply elem_of_cols. split; [lia|]. eauto.
  - apply elem_of_cols. split; [lia|]. eauto.
Qed.

(** *** Properties of the returned image *)

(** C5 (trim no-op on fully transparent input): an image whose pixels all
    have alpha 0 is returned as it is, same width, same height, same
    pixel data, and the call does not raise. *)
Theorem trim_fully_transparent_noop img :
  Forall (Forall (λ p, alpha p = 0%Z)) (pixels img) →
  trim_transparent_edges alpha blank img = Ok img.
Proof.
  intros Hzero.
  assert (Hrows : non_transparent_rows alpha img = []).
  { apply elem_of_nil_inv. intros y Hy.
    apply elem_of_rows in Hy as (x & p & Hat & Hpos).
    apply pixel_at_Some in Hat as (row & Hrow & Hp).
    rewrite Forall_forall in Hzero.
    assert (Hr : Forall (λ p, alpha p = 0%Z) row)
      by (apply Hzero, list_elem_of_lookup; eauto).
    rewrite Forall_forall in Hr.
    assert (alpha p = 0%Z) by (apply Hr, list_elem_of_lookup; eauto).
    lia. }
  unfold trim_transparent_edges. by rewrite Hrows.
Qed.

(** C6 (trim idempotence): trimming returns an image, and trimming that
    image again returns it unchanged. *)
Theorem trim_idempotent img :
  wf_image img →
  ∃ t, trim_transparent_edges alpha blank img = Ok t
       ∧ trim_transparent_edges alpha blank t = Ok t.
Proof.
  intros Hwf.
  destruct (trim_cases img)
    as [(_ & H & _)|(l & u & r & b & _ & Hl & Hr & Hu & Hb & H & _)].
  { exists img. done. }
  destruct (trim_total img) as [t Ht]. exists t. split; [done|].
  rewrite H in Ht.
  destruct (trim_crop_tight _ _ _ _ _ _ Hwf Hl Hr Hu Hb Ht)
    as (Hr0 & Hrb & Hc0 & Hcr).
  pose proof (crop_inv _ _ _ _ _ _ Ht) as (_ & _ & Hw & Hh & Hwft & _).
  destruct (trim_cases t)
    as [(_ & H' & _)|(l' & u' & r' & b' & _ & Hl' & Hr' & Hu' & Hb' & H' & _)];
    [done|].
  rewrite H'.
  pose proof (rows_bounds _ _ _ _ Hu' Hb' Hr0).
  pose proof (rows_bounds _ _ _ _ Hu' Hb' Hrb).
  pose proof (cols_bounds _ _ _ _ Hl' Hr' Hc0).
  pose proof (cols_bounds _ _ _ _ Hl' Hr' Hcr).
  pose proof (last_in_rows _ _ Hb') as (xb & pb & Hatb & _)%elem_of_rows.
  pose proof (last_in_cols _ _ Hr') as (Hr'w & _)%elem_of_cols.
  apply (pixel_at_bounds _ _ _ _ Hwft) in Hatb as [_ Hb'h].
  replace l' with 0 by lia. replace u' with 0 by lia.
  replace (r' + 1) with (width t) by lia.
  replace (b' + 1) with (height t) by lia.
  by apply crop_full.
Qed.

(** C10 (trim never enlarges): the returned image is no wider and no
    taller than the input, it fits into the input at the crop offset, and
    each of its pixels is the input's pixel at that offset. *)
Theorem trim_never_enlarges img :
  wf_image img →
  ∃ t, trim_transparent_edges alpha blank img = Ok t
       ∧ width t ≤ width img ∧ height t ≤ height img
       ∧ (trim_offset alpha img).1 + width t ≤ width img
       ∧ (trim_offset alpha img).2 + height t ≤ height img
       ∧ ∀ x y, x < width t → y < height t →
           ∃ p, pixel_at t x y = Some p
                ∧ pixel_at img ((trim_offset alpha img).1 + x)
                               ((trim_offset alpha img).2 + y) = Some p.
Proof.
  intros Hwf.
  destruct (trim_cases img)
    as [(_ & H & Ho)|(l & u & r & b & _ & Hl & Hr & Hu & Hb & H & Ho)];
    rewrite Ho; simpl.
  { exists img. repeat split; try done.
    intros x y Hx Hy. exists (getpixel blank img x y).
    split; by apply pixel_at_in_bounds. }
  destruct (trim_total img) as [t Ht]. exists t. split; [done|].
  rewrite H in Ht.
  pose proof (crop_inv _ _ _ _ _ _ Ht) as (? & ? & Hw & Hh & _ & Hpix).
  pose proof (last_in_rows _ _ Hb) as (xb & pb & Hatb & _)%elem_of_rows.
  pose proof (last_in_cols _ _ Hr) as (Hrw & _)%elem_of_cols.
  apply (pixel_at_bounds _ _ _ _ Hwf) in Hatb as [_ Hbh].
  repeat split; try lia.
  intros x y Hx Hy. exists (getpixel blank img (l + x) (u + y)). split.
  - apply Hpix; lia.
  - apply pixel_at_in_bounds; [done|lia..].
Qed.

End TrimFacts.

(** Trimming keeps the pixel grid full. *)
Lemma trim_wf {pixel} (alpha : pixel → Z) (blank : pixel) img t :
  wf_image img →
  trim_transparent_edges alpha blank img = Ok t →
  wf_image t.
Proof.
  intros Hwf Ht.
  destruct (trim_cases alpha blank img)
    as [(_ & H & _)|(l & u & r & b & _ & _ & _ & _ & _ & H & _)];
    rewrite H in Ht.
  - by injection Ht as <-.
  - by apply crop_inv in Ht as (_ & _ & _ & _ & ? & _).
Qed.

(** *** The guard of line 29 *)

(** [arr.any()] asks for a non-zero entry, and the arrays hold indices: the
    guard also fails when the only row, or the only column, that holds
    content is the one with index 0. *)
Lemma ndarray_any_where_false v :
  ndarray_any (np_where v) = false →
  np_where v = [] ∨ np_where v = [0].
Proof.
  unfold np_where. destruct v as [|b v]; simpl; [by left|].
  destruct b; simpl.
  - intros Hrest. right. f_equal.
    destruct (np_where_from 1 v) as [|k rest] eqn:E; [done|].
    assert (Hk : k ∈ np_where_from 1 v) by (rewrite E; left).
    apply np_where_from_lower in Hk.
    simpl in Hrest. destruct k; [lia|done].
  - intros Hrest. left.
    destruct (np_where_from 1 v) as [|k rest] eqn:E; [done|].
    assert (Hk : k ∈ np_where_from 1 v) by (rewrite E; left).
    apply np_where_from_lower in Hk.
    simpl in Hrest. destruct k; [lia|done].
Qed.

Lemma foldr_min_lower a l :
  (∀ k, k ∈ l → a ≤ k) → foldr Nat.min a l = a.
Proof.
  induction l as [|k l IH]; simpl; [done|]. intros H.
  rewrite IH by (intros k' Hk'; apply H; by right).
  pose proof (H k ltac:(left)). lia.
Qed.

Lemma foldr_max_last l b :
  last l = Some b → (∀ k, k ∈ l → k ≤ b) → foldr Nat.max 0 l = b.
Proof.
  induction l as [|k l IH]; [done|].
  destruct l as [|k' l].
  - simpl. intros [= <-] _. lia.
  - rewrite last_cons_cons. intros Hl H.
    change (foldr Nat.max 0 (k :: k' :: l))
      with (Nat.max k (foldr Nat.max 0 (k' :: l))).
    rewrite IH; [|done|intros k'' Hk''; apply H; by right].
    pose proof (H k ltac:(left)). lia.
Qed.

(** Past the guard the code does what the specification says: the box runs
    from the smallest to the largest listed row and column. *)
Lemma trim_meets_spec_past_guard {pixel} (alpha : pixel → Z) blank img :
  passes_guard alpha img = true →
  trim_transparent_edges alpha blank img = trim_spec alpha blank img.
Proof.
  intros Hg.
  destruct (trim_cases alpha blank img)
    as [(Hg' & _)|(l & u & r & b & _ & Hl & Hr & Hu & Hb & -> & _)];
    [congruence|].
  pose proof (rows_bounds alpha img u b) as Hrb.
  pose proof (cols_bounds alpha img l r) as Hcb.
  unfold trim_spec.
  destruct (non_transparent_rows alpha img) as [|row0 rr] eqn:Er; [done|].
  destruct (non_transparent_cols alpha img) as [|col0 cc] eqn:Ec; [done|].
  injection Hu as ->. injection Hl as ->.
  rewrite (foldr_min_lower u (u :: rr)) by (intros k Hk; by apply Hrb).
  rewrite (foldr_min_lower l (l :: cc)) by (intros k Hk; by apply Hcb).
  rewrite (foldr_max_last (u :: rr) b) by (try done; intros k Hk; by apply Hrb).
  rewrite (foldr_max_last (l :: cc) r) by (try done; intros k Hk; by apply Hcb).
  done.
Qed.

(** C1 (trim tightness), evaluated where the code departs from it: a 2x2
    image whose only pixel with alpha above 0 is the top-left one is
    returned whole, while the bounding box of its content is that single
    pixel. *)
Theorem trim_tightness_fails_on_first_row_content :
  let img := mkImage 2 2 [[solid; clear]; [clear; clear]] in
  non_transparent_rows chan_a img = [0]
  ∧ non_transparent_cols chan_a img = [0]
  ∧ trim_transparent_edges chan_a clear img = Ok img
  ∧ trim_spec chan_a clear img = Ok (mkImage 1 1 [[solid]]).
Proof. repeat split. Qed.

(** * Facts about the batch routine *)

Lemma dirname_join (folder : path) (name : string) :
  dirname (os_path_join folder name) = folder.
Proof. apply removelast_last. Qed.

Lemma basename_join (folder : path) (name : string) :
  basename (os_path_join folder name) = name.
Proof. apply last_last. Qed.

Lemma node_at_join (d : gmap path node) (folder : path) (name : string) :
  node_at d (os_path_join folder name) = d !! os_path_join folder name.
Proof. unfold os_path_join. by destruct folder. Qed.

Lemma join_inj (folder folder' : path) (name name' : string) :
  os_path_join folder name = os_path_join folder' name' →
  folder = folder' ∧ name = name'.
Proof. apply app_inj_tail. Qed.

Lemma join_ne_folder (folder : path) (name : string) :
  os_path_join folder name ≠ folder.
Proof.
  intros H. apply (f_equal length) in H.
  unfold os_path_join in H. rewrite length_app in H. simpl in H. lia.
Qed.

Lemma join_ne_nil (folder : path) (name : string) :
  os_path_join folder name ≠ [].
Proof. by destruct folder. Qed.

Lemma node_at_lookup (d : gmap path node) (p : path) :
  p ≠ [] → node_at d p = d !! p.
Proof. by destruct p. Qed.

Lemma isdir_lookup (d : gmap path node) (p : path) :
  d !! p = Some Dir → isdir d p = true.
Proof. unfold isdir. destruct p; [done|]. simpl. by intros ->. Qed.

Lemma isdir_true (d : gmap path node) (p : path) :
  isdir d p = true → node_at d p = Some Dir.
Proof. unfold isdir. by destruct (node_at d p) as [[|]|]. Qed.

Lemma isdir_file (d : gmap path node) (p : path) content :
  p ≠ [] → d !! p = Some (File content) → isdir d p = false.
Proof. unfold isdir. destruct p; [done|]. simpl. by intros _ ->. Qed.

Ltac io_unfold :=
  unfold bind, ret, raise, lift, try_except, print, read_disk, write_disk,
         os_path_isdir, os_path_exists in *.

(** *** Paths below paths *)

Lemma relative_to_Some folder p rest :
  relative_to folder p = Some rest → p = folder ++ rest.
Proof.
  revert p. induction folder as [|a folder IH]; intros p; simpl.
  - by intros [= ->].
  - destruct p as [|b p]; [done|]. case_decide; [|done].
    intros ->%IH. by subst.
Qed.

Lemma relative_to_app (folder rest : path) :
  relative_to folder (folder ++ rest) = Some rest.
Proof.
  induction folder as [|a folder IH]; simpl; [done|].
  by rewrite decide_True.
Qed.

Lemma relative_to_None_app (folder p rest : path) :
  relative_to folder p = None → p ≠ folder ++ rest.
Proof. intros H ->. by rewrite relative_to_app in H. Qed.

Lemma relative_to_prefix (folder p : path) :
  is_Some (relative_to folder p) ↔ folder `prefix_of` p.
Proof.
  split.
  - intros [rest ->%relative_to_Some]. by exists rest.
  - intros [rest ->]. rewrite relative_to_app. eauto.
Qed.

Lemma relative_to_None_prefix (folder p : path) :
  relative_to folder p = None ↔ ¬ folder `prefix_of` p.
Proof.
  rewrite <- relative_to_prefix, <- eq_None_not_Some. done.
Qed.

Lemma dirname_prefix (p : path) : dirname p `prefix_of` p.
Proof.
  unfold dirname. destruct (decide (p = [])) as [->|Hne]; [done|].
  exists [List.last p ""%string]. by apply app_removelast_last.
Qed.

(** A path with one component more than a folder lies below it only as
    its entry. *)
Lemma prefix_join_inv (p folder : path) (name : string) :
  p `prefix_of` os_path_join folder name →
  p = os_path_join folder name ∨ p `prefix_of` folder.
Proof.
  intros [rest Hrest].
  destruct (decide (rest = [])) as [->|Hne].
  - left. by rewrite app_nil_r in Hrest.
  - right. exists (removelast rest).
    rewrite (app_removelast_last ""%string Hne), app_assoc in Hrest.
    by apply app_inj_tail in Hrest as [-> _].
Qed.

Lemma prefix_length_eq (p q : path) :
  p `prefix_of` q → length q ≤ length p → p = q.
Proof.
  intros [rest ->] Hlen. rewrite length_app in Hlen.
  destruct rest; [by rewrite app_nil_r|simpl in Hlen; lia].
Qed.

Lemma join_length (folder : path) (name : string) :
  length (os_path_join folder name) = S (length folder).
Proof. unfold os_path_join. rewrite length_app. simpl. lia. Qed.

(** *** Moving a directory *)

Lemma NoDup_fst_omap {K V K' V'} (g : K * V → option (K' * V'))
    (l : list (K * V)) :
  (∀ a b a' b', g a = Some a' → g b = Some b' → a'.1 = b'.1 → a.1 = b.1) →
  NoDup (l.*1) → NoDup ((omap g l).*1).
Proof.
  intros Hinj. induction l as [|a l IH]; simpl; [constructor|].
  intros [Ha Hnd]%NoDup_cons. destruct (g a) as [a'|] eqn:Hga; [|auto].
  simpl. apply NoDup_cons. split; [|auto].
  intros (b' & Hb'1 & (b & Hb & Hgb)%list_elem_of_omap)%list_elem_of_fmap.
  apply Ha. apply list_elem_of_fmap. exists b. split; [|done].
  apply (Hinj a b a' b' Hga Hgb Hb'1).
Qed.

(** What was below the source is below the destination afterwards. *)
Lemma lookup_rename_tree_moved (src dst : path) (d : gmap path node)
    (rest : path) (n : node) :
  d !! (src ++ rest) = Some n →
  rename_tree src dst d !! (dst ++ rest) = Some n.
Proof.
  intros Hin. unfold rename_tree. apply lookup_union_Some_l.
  apply elem_of_list_to_map_1.
  - apply NoDup_fst_omap; [|apply NoDup_fst_map_to_list].
    intros [k v] [k0 v0] [k' v'] [k0' v0']. simpl.
    destruct (relative_to src k) as [r|] eqn:Hr; [|done].
    destruct (relative_to src k0) as [r0|] eqn:Hr0; [|done].
    simpl. intros [= <- <-] [= <- <-] Heq%app_inv_head.
    apply relative_to_Some in Hr, Hr0. congruence.
  - apply list_elem_of_omap. exists (src ++ rest, n). split.
    + by apply elem_of_map_to_list.
    + simpl. by rewrite relative_to_app.
Qed.

Lemma rename_tree_moved_part (src dst : path) (d : gmap path node) (q : path) :
  relative_to dst q = None →
  (list_to_map
     (omap (λ kv : path * node,
              (λ rest, (dst ++ rest, kv.2)) <$> relative_to src kv.1)
           (map_to_list d)) : gmap path node) !! q = None.
Proof.
  intros Hapart. apply not_elem_of_list_to_map_1.
  intros ([k v] & Hk & (kv & _ & Hg)%list_elem_of_omap)%list_elem_of_fmap.
  simpl in Hk. subst k.
  destruct (relative_to src kv.1) as [r|]; [|done]. simpl in Hg.
  injection Hg as Hq _.
  by apply (relative_to_None_app dst q r) in Hapart.
Qed.

(** Nothing is left at the source or below it. *)
Lemma lookup_rename_tree_below (src dst : path) (d : gmap path node)
    (q : path) :
  is_Some (relative_to src q) → relative_to dst q = None →
  rename_tree src dst d !! q = None.
Proof.
  intros Hbelow Hapart. unfold rename_tree. apply lookup_union_None. split.
  - by apply rename_tree_moved_part.
  - apply map_lookup_filter_None. right. intros n _. simpl.
    intros Hq. rewrite Hq in Hbelow. by destruct Hbelow.
Qed.

Lemma lookup_rename_tree_source (src dst : path) (d : gmap path node) :
  relative_to dst src = None →
  rename_tree src dst d !! src = None.
Proof.
  intros Hapart. apply lookup_rename_tree_below; [|done].
  apply relative_to_prefix. done.
Qed.

(** What is neither below the source nor below the destination stays. *)
Lemma lookup_rename_tree_other (src dst : path) (d : gmap path node)
    (q : path) :
  relative_to src q = None → relative_to dst q = None →
  rename_tree src dst d !! q = d !! q.
Proof.
  intros Hsrc Hdst. unfold rename_tree.
  rewrite lookup_union_r by (by apply rename_tree_moved_part).
  destruct (d !! q) as [n|] eqn:Hq.
  - by apply map_lookup_filter_Some_2.
  - apply map_lookup_filter_None. by left.
Qed.

(** *** Creating directories *)

Lemma only_adds_dirs_refl d : only_adds_dirs d d.
Proof. intros q. by left. Qed.

Lemma only_adds_dirs_trans d1 d2 d3 :
  only_adds_dirs d1 d2 → only_adds_dirs d2 d3 → only_adds_dirs d1 d3.
Proof.
  intros H12 H23 q. destruct (H12 q) as [E12|[N1 D2]], (H23 q) as [E23|[N2 D3]].
  - left. congruence.
  - right. split; congruence.
  - right. split; congruence.
  - congruence.
Qed.

Lemma only_adds_dirs_isdir d d1 p :
  only_adds_dirs d d1 → isdir d p = true → isdir d1 p = true.
Proof.
  intros H. unfold isdir. destruct p as [|a p]; [done|]. simpl.
  destruct (H (a :: p)) as [->|[-> ->]]; done.
Qed.

Lemma only_creates_folder_refl folder d : only_creates_folder folder d d.
Proof. intros q. by left. Qed.

Lemma only_creates_folder_trans folder d1 d2 d3 :
  only_creates_folder folder d1 d2 → only_creates_folder folder d2 d3 →
  only_creates_folder folder d1 d3.
Proof.
  intros H12 H23 q.
  destruct (H12 q) as [E12|(N1 & D2 & ?)], (H23 q) as [E23|(N2 & D3 & ?)].
  - left. congruence.
  - right. split_and!; congruence.
  - right. split_and!; congruence.
  - congruence.
Qed.

Lemma only_creates_folder_mono folder folder' d d1 :
  folder `prefix_of` folder' →
  only_creates_folder folder d d1 → only_creates_folder folder' d d1.
Proof.
  intros Hpre H q. destruct (H q) as [?|(? & ? & ?)]; [by left|right].
  split_and!; [done..|]. by etrans.
Qed.

Lemma only_creates_folder_adds folder d d1 :
  only_creates_folder folder d d1 → only_adds_dirs d d1.
Proof. intros H q. destruct (H q) as [?|(? & ? & ?)]; auto. Qed.

Lemma os_mkdir_inv p w r w1 :
  os_mkdir p w = (r, w1) →
  console w1 = console w
  ∧ only_creates_folder p (disk w) (disk w1)
  ∧ (r = Ok tt → isdir (disk w1) p = true)
  ∧ (node_at (disk w) p ≠ None → w1 = w).
Proof.
  unfold os_mkdir. io_unfold.
  destruct (node_at (disk w) p) as [n|] eqn:Hp.
  { intros [= <- <-].
    split_and!; [done|apply only_creates_folder_refl|done|done]. }
  destruct (node_at (disk w) (dirname p)) as [[c|]|];
    try (intros [= <- <-];
         split_and!; [done|apply only_creates_folder_refl|done|done]).
  intros [= <- <-]. simpl.
  assert (Hlook : disk w !! p = None) by (destruct p; done).
  split_and!; [done| | |done].
  - intros q. destruct (decide (q = p)) as [->|Hq].
    + right. by rewrite lookup_insert_eq.
    + left. by rewrite lookup_insert_ne.
  - intros _. unfold isdir. destruct p as [|a p]; [done|]. simpl.
    by rewrite lookup_insert_eq.
Qed.

Lemma makedirs_rec_inv n name w r w1 :
  makedirs_rec n name w = (r, w1) →
  console w1 = console w
  ∧ only_creates_folder name (disk w) (disk w1)
  ∧ (r = Ok tt → isdir (disk w1) name = true).
Proof.
  revert name w r w1. induction n as [|n IH]; intros name w r w1; simpl.
  { intros (? & ? & ? & _)%os_mkdir_inv. done. }
  unfold bind at 1. unfold os_path_exists at 1.
  unfold bind at 1.
  destruct (negb (bool_decide (dirname name = []))
            && negb (exists_ (disk w) (dirname name))).
  - unfold try_except.
    destruct (makedirs_rec n (dirname name) w) as [[[]|e] w0] eqn:Hrec;
      apply IH in Hrec as (Hc0 & Ha0 & _);
      apply (only_creates_folder_mono _ name) in Ha0;
      try apply dirname_prefix.
    + intros (Hc & Ha & Hd & _)%os_mkdir_inv.
      split_and!; [congruence| |done].
      by eapply only_creates_folder_trans.
    + destruct e;
        try (intros [= <- <-]; split_and!; done).
      unfold ret.
      intros (Hc & Ha & Hd & _)%os_mkdir_inv.
      split_and!; [congruence| |done].
      by eapply only_creates_folder_trans.
  - unfold ret. intros (? & ? & ? & _)%os_mkdir_inv. done.
Qed.

Lemma ensure_backup_folder_inv backup_folder w r w1 :
  ensure_backup_folder backup_folder w = (r, w1) →
  only_creates_folder backup_folder (disk w) (disk w1)
  ∧ (isdir (disk w) backup_folder = true → r = Ok tt ∧ w1 = w)
  ∧ (r = Ok tt →
     isdir (disk w1) backup_folder = true
     ∧ (isdir (disk w) backup_folder = false →
        console w1 = console w ++ [InfoBackupCreated backup_folder])).
Proof.
  unfold ensure_backup_folder. unfold bind at 1. unfold os_path_isdir.
  destruct (isdir (disk w) backup_folder) eqn:Hb; simpl.
  { unfold ret. intros [= <- <-].
    split_and!; [apply only_creates_folder_refl|done|done]. }
  unfold bind, os_makedirs.
  destruct (makedirs_rec _ _ w) as [[[]|e] w0] eqn:Hmk;
    apply makedirs_rec_inv in Hmk as (Hc & Ha & Hd).
  - unfold print. intros [= <- <-]. simpl.
    split_and!; [done|done|]. intros _. split; [by apply Hd|].
    intros _. by rewrite Hc.
  - intros [= <- <-]. split_and!; done.
Qed.

Lemma os_makedirs_on_file name w content :
  node_at (disk w) name = Some (File content) →
  exists_ (disk w) (dirname name) = true →
  os_makedirs name w = (Raise FileExistsError, w).
Proof.
  intros Hnode Hparent. unfold os_makedirs.
  destruct name as [|a p] eqn:En; [done|]. rewrite <- En in *.
  replace (length name) with (S (length p)) by (by rewrite En).
  simpl. io_unfold. rewrite Hparent, andb_false_r.
  unfold os_mkdir. io_unfold. by rewrite Hnode.
Qed.

Lemma os_makedirs_console name w r w1 :
  os_makedirs name w = (r, w1) → console w1 = console w.
Proof. intros (? & _)%makedirs_rec_inv. done. Qed.

(** *** Moving *)

Lemma os_rename_console S src dst w r w1 :
  os_rename S src dst w = (r, w1) → console w1 = console w.
Proof.
  unfold os_rename. io_unfold.
  repeat (case_match || case_bool_decide); by intros [= <- <-].
Qed.

Lemma copy2_console S src dst w r w1 :
  copy2 S src dst w = (r, w1) → console w1 = console w.
Proof.
  unfold copy2. io_unfold.
  repeat (case_match || case_bool_decide); by intros [= <- <-].
Qed.

Lemma os_unlink_console S p w r w1 :
  os_unlink S p w = (r, w1) → console w1 = console w.
Proof.
  unfold os_unlink. io_unfold.
  repeat (case_match || case_bool_decide); by intros [= <- <-].
Qed.

Lemma move_to_console S src dst real_dst w r w1 :
  move_to S src dst real_dst w = (r, w1) → console w1 = console w.
Proof.
  unfold move_to. unfold bind at 1. unfold try_except.
  destruct (os_rename S src real_dst w) as [[[]|e] w0] eqn:Hren;
    apply os_rename_console in Hren.
  { unfold ret. by intros [= <- <-]. }
  unfold bind at 1. unfold read_disk.
  destruct (isdir (disk w0) src).
  - case_bool_decide.
    { unfold raise. by intros [= <- <-]. }
    unfold bind.
    destruct (os_makedirs real_dst w0) as [[[]|e'] w2] eqn:Hmk;
      apply os_makedirs_console in Hmk.
    + unfold read_disk, write_disk, ret. intros [= <- <-]. simpl. congruence.
    + intros [= <- <-]. congruence.
  - unfold bind.
    destruct (copy2 S src real_dst w0) as [[[]|e'] w2] eqn:Hcp;
      apply copy2_console in Hcp.
    + destruct (os_unlink S src w2) as [[[]|e''] w3] eqn:Hun;
        apply os_unlink_console in Hun;
        unfold ret; intros [= <- <-]; congruence.
    + intros [= <- <-]. congruence.
Qed.

Lemma shutil_move_console S src dst w r w1 :
  shutil_move S src dst w = (r, w1) → console w1 = console w.
Proof.
  unfold shutil_move. unfold bind at 1. unfold os_path_isdir.
  destruct (isdir (disk w) dst).
  - case_bool_decide; [unfold ret; by intros [= <- <-]|].
    unfold bind, os_path_exists.
    destruct (exists_ _ _); [unfold raise; by intros [= <- <-]|].
    apply move_to_console.
  - apply move_to_console.
Qed.

(** [shutil.move] of a regular file: it raises and changes nothing; or it
    lands the bytes at the destination (inside it, when it is a directory)
    and the source entry is gone; or, the rename refused, it raises while
    copying or deleting, with the source still there and bytes at the
    destination. *)
Lemma move_to_file S w src dst real content r w1 :
  src ≠ [] →
  disk w !! src = Some (File content) →
  isdir (disk w) real = false →
  move_to S src dst real w = (r, w1) →
  (∃ e, r = Raise e ∧ w1 = w)
  ∨ (r = Ok real
     ∧ isdir (disk w) (dirname real) = true
     ∧ disk w1 = <[real := File content]> (delete src (disk w)))
  ∨ (∃ e bytes, r = Raise e ∧ src ≠ real
       ∧ rename_refused S src real = true
       ∧ isdir (disk w) (dirname real) = true
       ∧ disk w1 = <[real := File bytes]> (disk w)).
Proof.
  intros Hne Hsrc Hreal.
  assert (Hn : node_at (disk w) src = Some (File content))
    by (by rewrite node_at_lookup).
  assert (Hnd : isdir (disk w) src = false) by (by eapply isdir_file).
  assert (Hrn : node_at (disk w) real ≠ Some Dir).
  { intros H. unfold isdir in Hreal. by rewrite H in Hreal. }
  unfold move_to, os_rename, copy2, os_unlink. io_unfold.
  rewrite Hn. destruct (rename_refused S src real) eqn:Href.
  - (* the rename is refused: copy, then delete *)
    rewrite Hnd, Hreal, Hn.
    case_bool_decide as Hsame; [intros [= <- <-]; left; by eauto|].
    destruct (node_at (disk w) real) as [[old|]|] eqn:Hr; [|done|];
      (destruct (isdir (disk w) (dirname real)) eqn:Hpar;
       [|intros [= <- <-]; left; by eauto]);
      (destruct (copy_fault S src real content) as [[e [left_behind|]]|];
       [intros [= <- <-]; right; right; by eauto 10
       |intros [= <- <-]; left; by eauto|]);
      cbn [disk console];
      rewrite (node_at_lookup _ src Hne), lookup_insert_ne, Hsrc by done;
      (destruct (unlink_fault S src) as [e|];
       [intros [= <- <-]; right; right; by eauto 10|]);
      intros [= <- <-]; right; left; cbn [disk console];
      by rewrite delete_insert_ne.
  - destruct (node_at (disk w) real) as [[old|]|] eqn:Hr; [|done|];
      (destruct (isdir (disk w) (dirname real)) eqn:Hpar;
       [intros [= <- <-]; right; left; done|]);
      rewrite Hnd, Hreal, Hn, Hr, Hpar;
      (case_bool_decide; intros [= <- <-]; left; by eauto).
Qed.

Lemma shutil_move_file S w src dst content r w1 :
  src ≠ [] →
  disk w !! src = Some (File content) →
  shutil_move S src dst w = (r, w1) →
  let real := real_dst_of (disk w) src dst in
  console w1 = console w
  ∧ ((∃ e, r = Raise e ∧ w1 = w)
     ∨ (r = Ok real
        ∧ isdir (disk w) real = false
        ∧ isdir (disk w) (dirname real) = true
        ∧ (isdir (disk w) dst = true → disk w !! real = None)
        ∧ disk w1 = <[real := File content]> (delete src (disk w)))
     ∨ (∃ e bytes, r = Raise e ∧ src ≠ real
          ∧ rename_refused S src real = true
          ∧ isdir (disk w) real = false
          ∧ isdir (disk w) (dirname real) = true
          ∧ disk w1 = <[real := File bytes]> (disk w))).
Proof.
  intros Hne Hsrc Hmove real.
  split; [by eapply shutil_move_console|].
  revert Hmove. unfold shutil_move, real_dst_of in *. io_unfold.
  destruct (isdir (disk w) dst) eqn:Hdst.
  - case_bool_decide as Heq.
    { subst dst. by rewrite (isdir_file _ _ _ Hne Hsrc) in Hdst. }
    unfold exists_. rewrite node_at_join.
    destruct (disk w !! os_path_join dst (basename src)) eqn:Hin.
    { intros [= <- <-]. left. eauto. }
    assert (Hnd : isdir (disk w) real = false).
    { unfold isdir, real. by rewrite node_at_join, Hin. }
    intros Hmove.
    destruct (move_to_file _ _ _ _ _ _ _ _ Hne Hsrc Hnd Hmove)
      as [?|[(? & ? & ?)|(e & bytes & ? & ? & ? & ? & ?)]];
      [by left|right; left; done|right; right; eauto 10].
  - intros Hmove.
    destruct (move_to_file _ _ _ _ _ _ _ _ Hne Hsrc Hdst Hmove)
      as [?|[(? & ? & ?)|(e & bytes & ? & ? & ? & ? & ?)]];
      [by left|right; left; done|right; right; eauto 10].
Qed.

(** [shutil.move] of a name with nothing behind it. *)
Lemma shutil_move_missing S w src dst :
  src ≠ [] →
  disk w !! src = None →
  shutil_move S src dst w
  = (Raise (if isdir (disk w) dst
               && exists_ (disk w) (os_path_join dst (basename src))
            then ShutilError else FileNotFoundError), w).
Proof.
  intros Hne Hsrc.
  assert (Hn : node_at (disk w) src = None) by (by rewrite node_at_lookup).
  assert (Hnd : isdir (disk w) src = false) by (unfold isdir; by rewrite Hn).
  unfold shutil_move, move_to, os_rename, copy2. io_unfold.
  destruct (isdir (disk w) dst) eqn:Hdst; simpl.
  - case_bool_decide as Heq; [congruence|].
    destruct (exists_ _ _); [done|]. by rewrite Hn, Hnd, Hn.
  - by rewrite Hn, Hnd, Hn.
Qed.

(** [shutil.move] of a directory, the parent of the place it is to go to
    being there: it raises and changes nothing, or source and destination
    are the same and nothing is done, or the directory goes to the
    destination (inside it, when it is a directory) with everything below
    it. *)
Lemma shutil_move_dir S w src dst r w1 :
  src ≠ [] →
  disk w !! src = Some Dir →
  let real := real_dst_of (disk w) src dst in
  isdir (disk w) (dirname real) = true →
  shutil_move S src dst w = (r, w1) →
  (∃ e, r = Raise e ∧ w1 = w)
  ∨ (r = Ok dst ∧ w1 = w ∧ src = dst)
  ∨ (r = Ok real
     ∧ relative_to src dst = None
     ∧ relative_to src real = None
     ∧ disk w !! real = None
     ∧ disk w1 = rename_tree src real (disk w)).
Proof.
  intros Hne Hsrc real Hpar.
  assert (Hn : node_at (disk w) src = Some Dir) by (by rewrite node_at_lookup).
  assert (Hd : isdir (disk w) src = true) by (by apply isdir_lookup).
  unfold shutil_move, move_to, os_rename. io_unfold.
  unfold real_dst_of in real.
  destruct (isdir (disk w) dst) eqn:Hdst.
  - case_bool_decide as Heq.
    { intros [= <- <-]. right. left. done. }
    unfold exists_. rewrite node_at_join.
    destruct (disk w !! os_path_join dst (basename src)) eqn:Hin.
    { intros [= <- <-]. left. eauto. }
    rewrite Hn. fold real in Hin |- *.
    assert (Hsr : src ≠ real).
    { intros E. rewrite E in Hsrc. by rewrite Hsrc in Hin. }
    rewrite bool_decide_eq_false_2 by done.
    case_bool_decide as Hbelow.
    + rewrite Hd. rewrite bool_decide_eq_true_2.
      { intros [= <- <-]. left. eauto. }
      apply relative_to_prefix. apply relative_to_prefix in Hbelow.
      apply prefix_join_inv in Hbelow as [Hb|Hb]; [by destruct Hsr|done].
    + unfold real at 1. rewrite node_at_join. fold real. rewrite Hin, Hpar.
      intros [= <- <-]. right. right.
      apply eq_None_not_Some in Hbelow.
      split_and!; [done| |done..].
      apply relative_to_None_prefix. intros Hp.
      apply relative_to_None_prefix in Hbelow. apply Hbelow.
      etrans; [exact Hp|]. by exists [basename src].
  - rewrite Hn. subst real.
    assert (Hsd : src ≠ dst) by congruence.
    rewrite bool_decide_eq_false_2 by done.
    case_bool_decide as Hbelow.
    { rewrite Hd. intros [= <- <-]. left. eauto. }
    apply eq_None_not_Some in Hbelow.
    destruct (node_at (disk w) dst) as [[old|]|] eqn:Hnode.
    + rewrite Hd.
      erewrite os_makedirs_on_file; [|done|].
      * intros [= <- <-]. left. eauto.
      * unfold exists_. by rewrite (isdir_true _ _ Hpar).
    + unfold isdir in Hdst. by rewrite Hnode in Hdst.
    + rewrite Hpar.
      intros [= <- <-]. right. right. split_and!; try done.
      destruct dst; [done|]. done.
Qed.
Section BatchFacts.
Context {pixel : Type} (P : imaging pixel).
Context (target_folder backup_folder : path).
Context (target_width target_height : Z).

Local Abbreviation original_path f := (os_path_join target_folder f).
Local Abbreviation backup_path f := (os_path_join backup_folder f).
Local Abbreviation trim := (trim_transparent_edges (px_alpha P) (px_blank P)).
Local Abbreviation sys := (im_platform P).
Local Abbreviation process :=
  (process_file P target_folder backup_folder target_width target_height).

(** A resized image has the requested size, and a full pixel grid when
    the image it came from had one. *)
Lemma resize_size t rz :
  resize P t (target_width, target_height) = Ok rz →
  Z.of_nat (width rz) = target_width
  ∧ Z.of_nat (height rz) = target_height
  ∧ (wf_image t → wf_image rz).
Proof.
  unfold resize. case_bool_decide as Hsame.
  - intros [= <-]. by injection Hsame as <- <-.
  - destruct (negb (c_int target_width && c_int target_height)); [done|].
    destruct ((target_width <? 1) || (target_height <? 1))%Z eqn:Hsmall;
      [done|].
    apply orb_false_iff in Hsmall as [Hw Hh].
    apply Z.ltb_ge in Hw, Hh.
    intros [= <-]. simpl. repeat split; try lia.
    + simpl. by rewrite length_map, length_seq.
    + simpl. apply Forall_forall. intros row Hrow.
      apply list_elem_of_lookup in Hrow as [i Hi].
      rewrite lookup_map in Hi.
      destruct (seq 0 (Z.to_nat target_height) !! i); simpl in Hi; [|done].
      injection Hi as <-. by rewrite length_map, length_seq.
Qed.

Lemma pipeline_size content rz :
  pipeline P target_width target_height content = Ok rz →
  Z.of_nat (width rz) = target_width
  ∧ Z.of_nat (height rz) = target_height
  ∧ ((∀ bs img, im_decode P bs = Ok img → wf_image img) → wf_image rz).
Proof.
  unfold pipeline, rbind.
  destruct (im_decode P content) as [img|e] eqn:Hdec; [|done].
  destruct (trim img) as [t|e] eqn:Htrim; [|done].
  intros (Hw & Hh & Hwf)%resize_size. split_and!; [done..|].
  intros Hdecwf. apply Hwf. eapply trim_wf; [|exact Htrim]. eauto.
Qed.

Lemma image_save_inv rz p w1 r w2 :
  image_save P rz p w1 = (r, w2) →
  console w2 = console w1 ∧
  ((∃ e, r = Raise e ∧ w2 = w1)
   ∨ (∃ e old written,
        r = Raise e ∧ node_at (disk w1) p = Some (File old)
        ∧ disk w2 = <[p := File written]> (disk w1))
   ∨ (r = Ok tt ∧ ∃ written,
        pil_format (basename p) = Ok tt
        ∧ im_encode P rz = (written, None)
        ∧ disk w2 = <[p := File written]> (disk w1))).
Proof.
  unfold image_save. io_unfold.
  destruct (pil_format (basename p)) as [[]|e0];
    [|intros [= <- <-]; split; [done|]; left; by eauto].
  destruct (node_at (disk w1) p) as [[old|]|] eqn:Hp.
  - destruct (im_encode P rz) as [written [e|]]; simpl;
      intros [= <- <-]; (split; [done|]); simpl.
    + right. left. eauto 10.
    + right. right. eauto.
  - intros [= <- <-]. split; [done|]. left. eauto.
  - destruct (isdir (disk w1) (dirname p)).
    + destruct (im_encode P rz) as [written [e|]]; simpl;
        intros [= <- <-]; (split; [done|]); simpl.
      * left. eauto.
      * right. right. eauto.
    + intros [= <- <-]. split; [done|]. left. eauto.
Qed.

(** Opening, trimming, resizing and saving: the steps after the move
    either all succeed and write the encoded result to the original path,
    or one of them raises; only a failing encoder that found a file
    already at the original path leaves anything behind. *)
Lemma transform_backup_inv orig bak w1 r w2 :
  transform_backup P target_width target_height orig bak w1 = (r, w2) →
  console w2 = console w1 ∧
  ((∃ e, r = Raise e ∧ w2 = w1)
   ∨ (∃ e old written,
        r = Raise e ∧ node_at (disk w1) orig = Some (File old)
        ∧ disk w2 = <[orig := File written]> (disk w1))
   ∨ (r = Ok tt ∧ ∃ content rz written,
        node_at (disk w1) bak = Some (File content)
        ∧ pipeline P target_width target_height content = Ok rz
        ∧ pil_format (basename orig) = Ok tt
        ∧ im_encode P rz = (written, None)
        ∧ disk w2 = <[orig := File written]> (disk w1))).
Proof.
  unfold transform_backup, image_open, pipeline, rbind. io_unfold.
  destruct (node_at (disk w1) bak) as [[content|]|] eqn:Hbak;
    try (intros [= <- <-]; split; [done|]; left; by eauto).
  destruct (im_decode P content) as [img|e] eqn:Hdec;
    [|intros [= <- <-]; split; [done|]; left; by eauto].
  destruct (trim img) as [t|e] eqn:Htrim;
    [|intros [= <- <-]; split; [done|]; left; by eauto].
  destruct (resize P t (target_width, target_height)) as [rz|e] eqn:Hrz;
    [|intros [= <- <-]; split; [done|]; left; by eauto].
  intros Hsave. apply image_save_inv in Hsave as [Hc Hsave].
  split; [done|].
  destruct Hsave as [H|[H|(-> & written & Hfmt & Henc & Hd)]];
    [by left|by right; left|].
  right. right. split; [done|]. exists content, rz, written.
  rewrite Hdec. simpl. rewrite Htrim. simpl. done.
Qed.

(** The same steps when the bytes are at the backup path and the original
    path is vacant: what happens depends on the bytes and the name alone,
    and a failure leaves nothing behind. *)
Lemma transform_backup_vacant orig bak content w1 :
  node_at (disk w1) bak = Some (File content) →
  node_at (disk w1) orig = None →
  isdir (disk w1) (dirname orig) = true →
  transform_backup P target_width target_height orig bak w1
  = match pipeline P target_width target_height content with
    | Raise e => (Raise e, w1)
    | Ok resized_img =>
        match pil_format (basename orig) with
        | Raise e => (Raise e, w1)
        | Ok _ =>
            match im_encode P resized_img with
            | (_, Some e) => (Raise e, w1)
            | (written, None) =>
                (Ok tt, mkWorld (<[orig := File written]> (disk w1))
                          (console w1))
            end
        end
    end.
Proof.
  intros Hbak Horig Hpar.
  unfold transform_backup, image_open, image_save, pipeline, rbind.
  io_unfold. rewrite Hbak.
  destruct (im_decode P content) as [img|e]; [|done].
  destruct (trim img) as [t|e]; [|done].
  destruct (resize P t (target_width, target_height)) as [rz|e]; [|done].
  destruct (pil_format (basename orig)) as [[]|e]; [|done].
  rewrite Horig, Hpar.
  by destruct (im_encode P rz) as [written [e|]].
Qed.

Lemma attempt_console f w r w' :
  attempt P target_folder backup_folder target_width target_height f w
  = (r, w') →
  console w' = console w.
Proof.
  unfold attempt, bind.
  destruct (shutil_move _ _ _ w) as [[real|e] w1] eqn:Hmove;
    apply shutil_move_console in Hmove.
  - intros [Hc _]%transform_backup_inv. congruence.
  - intros [= <- <-]. done.
Qed.

(** The [try] of line 79 and its handler: whatever lines 81-94 did, one
    line is printed for the file, and an exception leaves only when the
    console cannot print the file's name. *)
Lemma process_file_print f w :
  process f w
  = let out :=
      attempt P target_folder backup_folder target_width target_height f w in
    print_name sys f (report f out.1) out.2.
Proof.
  unfold process_file, try_except, bind, print_name.
  destruct (attempt _ _ _ _ _ f w) as [[[]|e] w2]; simpl; [|done].
  destruct (out_encodes sys f); done.
Qed.

Lemma process_file_result f w r w' :
  process f w = (r, w') →
  (out_encodes sys f = true ∧ r = Ok tt
   ∧ w' = let out :=
            attempt P target_folder backup_folder target_width target_height
              f w in
          mkWorld (disk out.2) (console w ++ [report f out.1]))
  ∨ (out_encodes sys f = false ∧ r = Raise UnicodeEncodeError
     ∧ w' = (attempt P target_folder backup_folder target_width target_height
               f w).2).
Proof.
  rewrite process_file_print. unfold print_name, print, raise.
  destruct (attempt _ _ _ _ _ f w) as [r0 w2] eqn:Hatt.
  apply attempt_console in Hatt. simpl.
  destruct (out_encodes sys f); intros [= <- <-]; [left|right];
    split_and!; try done.
  by rewrite Hatt.
Qed.

(** C9 (missing source folder): the routine prints the error line and
    returns; the directory tree is what it was, so no backup folder was
    created and no file was moved or written. *)
Theorem missing_source_folder_returns_early w :
  isdir (disk w) target_folder = false →
  resize_replace_and_backup P target_folder backup_folder
    target_width target_height w
  = (Ok tt, mkWorld (disk w) (console w ++ [ErrTargetMissing target_folder])).
Proof.
  intros H. unfold resize_replace_and_backup. io_unfold. by rewrite H.
Qed.

(** C7 (resize exactness): when a file is reported as processed, the
    original path holds the encoding of an image whose width and height are
    the target width and height, whatever the size of the decoded image; its
    pixel grid is full when the decoder's images are. *)
Theorem processed_file_has_target_size f w w' :
  process_file P target_folder backup_folder target_width target_height f w
  = (Ok tt, w') →
  last (console w') = Some (FileDone f) →
  ∃ rz written,
    disk w' !! original_path f = Some (File written)
    ∧ im_encode P rz = (written, None)
    ∧ Z.of_nat (width rz) = target_width
    ∧ Z.of_nat (height rz) = target_height
    ∧ ((∀ bs img, im_decode P bs = Ok img → wf_image img) → wf_image rz).
Proof.
  intros [(_ & _ & ->)|(_ & ? & _)]%process_file_result; [|done].
  cbn [disk console]. rewrite last_snoc.
  unfold attempt, bind.
  destruct (shutil_move _ _ _ w) as [[real|e] w1]; [|done].
  destruct (transform_backup _ _ _ _ _ w1) as [[[]|e] w2] eqn:Htr; [|done].
  intros _. simpl.
  apply transform_backup_inv in Htr
    as [_ [(e & ? & _)|[(e & ? & ? & ? & _)|Hok]]]; [done..|].
  destruct Hok as (_ & content & rz & written & _ & Hpipe & _ & Henc & ->).
  exists rz, written. rewrite lookup_insert_eq.
  destruct (pipeline_size _ _ Hpipe) as (Hw & Hh & Hwf). done.
Qed.


(** *** Everything lines 81-94 can do with a regular file *)

Lemma attempt_on_file f content w r w' :
  disk w !! original_path f = Some (File content) →
  attempt P target_folder backup_folder target_width target_height f w
  = (r, w') →
  let real := real_dst_of (disk w) (original_path f) (backup_path f) in
  let moved := <[real := File content]> (delete (original_path f) (disk w)) in
  (∃ e, r = Raise e ∧ w' = w
        ∧ shutil_move sys (original_path f) (backup_path f) w = (Raise e, w))
  ∨ (∃ e bytes, r = Raise e
        ∧ shutil_move sys (original_path f) (backup_path f) w = (Raise e, w')
        ∧ original_path f ≠ real
        ∧ rename_refused sys (original_path f) real = true
        ∧ isdir (disk w) real = false
        ∧ disk w' = <[real := File bytes]> (disk w))
  ∨ (∃ e, r = Raise e
        ∧ shutil_move sys (original_path f) (backup_path f) w = (Ok real, w')
        ∧ isdir (disk w) (dirname real) = true
        ∧ isdir (disk w) real = false
        ∧ (original_path f = real → target_folder = backup_folder)
        ∧ disk w' = moved)
  ∨ (∃ e w1 written, r = Raise e
        ∧ shutil_move sys (original_path f) (backup_path f) w = (Ok real, w1)
        ∧ target_folder = backup_folder
        ∧ original_path f = real
        ∧ disk w1 = moved
        ∧ disk w' = <[original_path f := File written]> moved)
  ∨ (∃ w1 rz written, r = Ok tt
        ∧ shutil_move sys (original_path f) (backup_path f) w
          = (Ok (backup_path f), w1)
        ∧ isdir (disk w) (backup_path f) = false
        ∧ isdir (disk w) backup_folder = true
        ∧ pipeline P target_width target_height content = Ok rz
        ∧ pil_format f = Ok tt
        ∧ im_encode P rz = (written, None)
        ∧ disk w1 = <[backup_path f := File content]>
                      (delete (original_path f) (disk w))
        ∧ disk w' = <[original_path f := File written]> (disk w1)).
Proof.
  intros Hfile Hrun real moved. revert Hrun. unfold attempt, bind.
  pose proof (join_ne_nil target_folder f) as Hne.
  destruct (shutil_move _ _ _ w) as [r1 w1] eqn:Hmove.
  destruct (shutil_move_file _ _ _ _ _ _ _ Hne Hfile Hmove)
    as [Hc [(e & -> & ->)
           |[(-> & Hnd & Hpar & Hfree & Hd1)
            |(e & bytes & -> & Hor & Href & Hnd & Hpar & Hd1)]]].
  - (* the move raised *)
    intros [= <- <-]. left. eauto.
  - (* moved *)
    assert (Hsame : original_path f = real → target_folder = backup_folder).
    { intros Heq. unfold real, real_dst_of in *. rewrite basename_join in *.
      destruct (isdir (disk w) (backup_path f)).
      - rewrite <- Heq, Hfile in Hfree. by specialize (Hfree eq_refl).
      - by apply join_inj in Heq as [? _]. }
    intros Htr.
    apply transform_backup_inv in Htr
      as [Hc2 [(e & -> & ->)|[(e & old & written & -> & Hold & Hd2)|Hok]]].
    + right. right. left. exists e. done.
    + rewrite node_at_join, Hd1 in Hold.
      destruct (decide (original_path f = real)) as [Heq|Hdiff].
      * do 3 right. left. exists e, w1, written.
        rewrite Hd2, Hd1. split_and!; auto.
      * by rewrite lookup_insert_ne, lookup_delete_eq in Hold.
    + destruct Hok as (-> & content' & rz & written
                       & Hbak & Hpipe & Hfmt & Henc & Hd2).
      rewrite basename_join in Hfmt.
      rewrite node_at_join, Hd1 in Hbak.
      unfold real, real_dst_of in *. rewrite basename_join in *.
      destruct (isdir (disk w) (backup_path f)) eqn:Hbd.
      * apply isdir_true in Hbd. rewrite node_at_join in Hbd.
        rewrite lookup_insert_ne in Hbak by apply join_ne_folder.
        rewrite lookup_delete_ne, Hbd in Hbak; [done|]. congruence.
      * rewrite lookup_insert_eq in Hbak. injection Hbak as <-.
        rewrite dirname_join in Hpar.
        do 4 right. exists w1, rz, written. split_and!; done.
  - (* the move gave up while copying *)
    intros [= <- <-]. right. left. exists e, bytes. done.
Qed.

(** C2 (backup before mutation), for a source folder and a backup folder
    that differ: the later steps run on what the move left, and already
    then, before anything is decoded, the original bytes are in the backup
    folder and the original path is vacant; when one of decoding, trimming,
    resizing or saving raises, it has changed nothing on disk, and the file
    is reported with that exception. *)
Theorem backup_happens_before_processing f content w real w1 :
  target_folder ≠ backup_folder →
  disk w !! original_path f = Some (File content) →
  shutil_move (im_platform P) (original_path f) (backup_path f) w
  = (Ok real, w1) →
  backed_up_slot_empty target_folder backup_folder f content (disk w1)
  ∧ ∀ e w2,
      transform_backup P target_width target_height
        (original_path f) (backup_path f) w1 = (Raise e, w2) →
      disk w2 = disk w1
      ∧ process_file P target_folder backup_folder
          target_width target_height f w
        = print_name (im_platform P) f (FileError f e)
            (mkWorld (disk w1) (console w)).
Proof.
  intros Hdiff Hfile Hmove.
  pose proof (join_ne_nil target_folder f) as Hne.
  assert (Hob : original_path f ≠ backup_path f)
    by (intros [? _]%join_inj; done).
  destruct (shutil_move_file _ _ _ _ _ _ _ Hne Hfile Hmove)
    as [Hc [(e' & ? & _)
           |[(Hreal & _ & _ & Hfree & Hd1)|(e' & ? & ? & _)]]]; [done| |done].
  injection Hreal as ->.
  unfold real_dst_of in *. rewrite basename_join in *.
  assert (Hslot : backed_up_slot_empty target_folder backup_folder
                    f content (disk w1)).
  { rewrite Hd1. destruct (isdir (disk w) (backup_path f)) eqn:Hbd.
    - assert (Hor : os_path_join (backup_path f) f ≠ original_path f).
      { intros Heq. rewrite Heq, Hfile in Hfree. by specialize (Hfree eq_refl). }
      split; [|right].
      + by rewrite lookup_insert_ne, lookup_delete_eq.
      + by rewrite lookup_insert_eq.
    - split; [|left].
      + by rewrite lookup_insert_ne, lookup_delete_eq.
      + by rewrite lookup_insert_eq. }
  split; [done|]. intros e w2 Htr.
  pose proof Htr as Htr'.
  apply transform_backup_inv in Htr'
    as [Hc2 [(e2 & _ & ->)|[(e2 & old & written & _ & Hold & _)|(? & _)]]];
    [|by rewrite node_at_join, (proj1 Hslot) in Hold|done].
  split; [done|].
  rewrite process_file_print. unfold attempt, bind. rewrite Hmove, Htr.
  simpl. destruct w1 as [d1 c1]. simpl in *. by rewrite Hc.
Qed.

(** C3 (backup safety), as the code has it, for a source folder and a
    backup folder that differ: after a file's processing exactly one of
    four holds.  It is reported done, the backup path holds the original
    bytes and the original path the transformed image; or the move raised
    and the directory tree is untouched; or the move raised after it had
    started to copy, the original is still at the original path and bytes
    are where it was to go; or the move was done and a later step raised,
    the original bytes are in the backup folder and the original path is
    vacant.  The line is printed when the console can print the name. *)
Theorem process_file_four_outcomes f content w :
  target_folder ≠ backup_folder →
  disk w !! original_path f = Some (File content) →
  ∃ d' line,
    process_file P target_folder backup_folder target_width target_height f w
    = print_name (im_platform P) f line (mkWorld d' (console w))
    ∧ let moved := ∃ real w1,
          shutil_move (im_platform P) (original_path f) (backup_path f) w
          = (Ok real, w1) in
      let failed := ∃ e, line = FileError f e in
      let done_ :=
        line = FileDone f ∧ moved
        ∧ backed_up_and_replaced P target_folder backup_folder
            target_width target_height f content d' in
      let move_failed := failed ∧ ¬ moved ∧ d' = disk w in
      let copy_left :=
        failed ∧ ¬ moved ∧ d' ≠ disk w
        ∧ copy_left_behind target_folder backup_folder f content (disk w) d'
      in
      let left_in_backup :=
        failed ∧ moved
        ∧ backed_up_slot_empty target_folder backup_folder f content d' in
      (done_ ∧ ¬ move_failed ∧ ¬ copy_left ∧ ¬ left_in_backup)
      ∨ (¬ done_ ∧ move_failed ∧ ¬ copy_left ∧ ¬ left_in_backup)
      ∨ (¬ done_ ∧ ¬ move_failed ∧ copy_left ∧ ¬ left_in_backup)
      ∨ (¬ done_ ∧ ¬ move_failed ∧ ¬ copy_left ∧ left_in_backup).
Proof.
  intros Hdiff Hfile.
  assert (Hob : original_path f ≠ backup_path f)
    by (intros [? _]%join_inj; done).
  destruct (attempt P target_folder backup_folder target_width target_height
              f w) as [r w'] eqn:Hrun.
  pose proof (attempt_console _ _ _ _ Hrun) as Hcon.
  exists (disk w'), (report f r). split.
  { rewrite process_file_print, Hrun. simpl.
    destruct w' as [d' c']. simpl in *. by rewrite Hcon. }
  assert (Hreal : ∀ real,
            real = real_dst_of (disk w) (original_path f) (backup_path f) →
            real = backup_path f ∨ real = os_path_join (backup_path f) f).
  { intros real ->. unfold real_dst_of. rewrite basename_join.
    destruct (isdir _ _); auto. }
  simpl.
  destruct (attempt_on_file f content w r w' Hfile Hrun)
    as [(e & -> & -> & Hmove)
       |[(e & bytes & -> & Hmove & Hor & _ & _ & Hd)
        |[(e & -> & Hmove & _ & _ & Hsame & Hd)
         |[(e & w1 & written & _ & _ & ? & _)
          |(w1 & rz & written & -> & Hmove & Hnd & Hb
            & Hpipe & Hfmt & Henc & Hd1 & Hd)]]]]; [..|done|]; simpl.
  - (* the move raised *)
    right. left. split_and!.
    + by intros [? _].
    + eauto.
    + intros (real & w1 & Hm). by rewrite Hmove in Hm.
    + done.
    + by intros (_ & _ & ? & _).
    + intros (_ & (real & w1 & Hm) & _). by rewrite Hmove in Hm.
  - (* the move gave up while copying *)
    set (real := real_dst_of (disk w) (original_path f) (backup_path f)) in *.
    assert (Hkept : disk w' !! original_path f = Some (File content))
      by (by rewrite Hd, lookup_insert_ne).
    destruct (decide (disk w !! real = Some (File bytes))) as [Hid|Hnew].
    + right. left. rewrite Hd, insert_id by done. split_and!.
      * by intros [? _].
      * eauto.
      * intros (real' & w1 & Hm). by rewrite Hmove in Hm.
      * done.
      * by intros (_ & _ & ? & _).
      * intros (_ & (real' & w1 & Hm) & _). by rewrite Hmove in Hm.
    + right. right. left. split_and!.
      * by intros [? _].
      * intros (_ & _ & Heq). apply Hnew.
        by rewrite <- Heq, Hd, lookup_insert_eq.
      * eauto.
      * intros (real' & w1 & Hm). by rewrite Hmove in Hm.
      * intros Heq. apply Hnew. by rewrite <- Heq, Hd, lookup_insert_eq.
      * split; [done|]. exists real, bytes. split; [by apply Hreal|done].
      * intros (_ & (real' & w1 & Hm) & _). by rewrite Hmove in Hm.
  - (* moved, then a step raised *)
    set (real := real_dst_of (disk w) (original_path f) (backup_path f)) in *.
    assert (Hor : original_path f ≠ real) by (intros ?%Hsame; done).
    assert (Hgone : disk w' !! original_path f = None)
      by (by rewrite Hd, lookup_insert_ne, lookup_delete_eq).
    do 3 right. split_and!.
    + by intros [? _].
    + intros (_ & Hnot & _). apply Hnot. eauto.
    + intros (_ & Hnot & _). apply Hnot. eauto.
    + eauto.
    + eauto.
    + split; [done|]. rewrite Hd.
      destruct (Hreal real eq_refl) as [Hr|Hr]; [left|right];
        rewrite <- Hr; by rewrite lookup_insert_eq.
  - (* every step succeeded *)
    left. split_and!.
    + done.
    + eauto.
    + split.
      * rewrite Hd, Hd1. rewrite lookup_insert_ne by done.
        by rewrite lookup_insert_eq.
      * exists rz, written. rewrite Hd, lookup_insert_eq.
        destruct (pipeline_size _ _ Hpipe) as (? & ? & _). done.
    + by intros ([e ?] & _).
    + by intros ([e ?] & _).
    + by intros ([e ?] & _).
Qed.

End BatchFacts.
(** *** Listing the folder *)

Lemma entry_name_Some folder p name :
  entry_name folder p = Some name → p = os_path_join folder name.
Proof.
  unfold entry_name.
  destruct (relative_to folder p) as [[|n [|]]|] eqn:E; try done.
  intros [= <-]. by apply relative_to_Some.
Qed.

Lemma NoDup_omap_inj {A B} (f : A → option B) (l : list A) :
  (∀ x y z, f x = Some z → f y = Some z → x = y) →
  NoDup l → NoDup (omap f l).
Proof.
  intros Hinj. induction 1 as [|x l Hx Hl IH]; simpl; [constructor|].
  destruct (f x) as [z|] eqn:Hfx; [|done].
  constructor; [|done].
  intros (y & Hy & Hfy)%list_elem_of_omap.
  by rewrite (Hinj _ _ _ Hfx Hfy) in Hx.
Qed.

Lemma elem_of_png_entries d folder name :
  name ∈ png_entries d folder →
  is_png name = true ∧ is_Some (d !! os_path_join folder name).
Proof.
  unfold png_entries. rewrite list_elem_of_In, filter_In, <- list_elem_of_In.
  intros [(p & Hp & Hname)%list_elem_of_omap Hpng]. split; [done|].
  apply entry_name_Some in Hname as ->.
  apply list_elem_of_In, in_map_iff in Hp as ([k v] & Hk & Hin).
  simpl in Hk. subst k.
  apply list_elem_of_In, elem_of_map_to_list in Hin. eauto.
Qed.

Lemma png_entries_complete d folder name :
  is_png name = true → is_Some (d !! os_path_join folder name) →
  name ∈ png_entries d folder.
Proof.
  intros Hpng [n Hn]. unfold png_entries.
  apply list_elem_of_In, filter_In. split; [|done].
  apply list_elem_of_In, list_elem_of_omap.
  exists (os_path_join folder name). split.
  - apply list_elem_of_In, in_map_iff. exists (os_path_join folder name, n).
    split; [done|]. by apply list_elem_of_In, elem_of_map_to_list.
  - unfold entry_name, os_path_join. by rewrite relative_to_app.
Qed.

Lemma NoDup_png_entries d folder : NoDup (png_entries d folder).
Proof.
  unfold png_entries. apply NoDup_ListNoDup, List.NoDup_filter, NoDup_ListNoDup.
  apply NoDup_omap_inj.
  - intros p q name ->%entry_name_Some ->%entry_name_Some. done.
  - apply NoDup_fst_map_to_list.
Qed.

Lemma list_png_files_spec target_folder w :
  isdir (disk w) target_folder = true →
  list_png_files target_folder w
  = if bool_decide (png_entries (disk w) target_folder = [])
    then (Ok None,
          mkWorld (disk w) (console w ++ [InfoNoPng target_folder]))
    else (Ok (Some (png_entries (disk w) target_folder)),
          mkWorld (disk w)
            (console w
             ++ [InfoCount (length (png_entries (disk w) target_folder))])).
Proof.
  unfold isdir, list_png_files, os_listdir, png_entries. io_unfold.
  destruct (node_at (disk w) target_folder) as [[|]|]; try done.
  intros _. by case_bool_decide.
Qed.

(** *** The routine as a whole *)

Lemma isdir_insert_delete_other (d : gmap path node) p ins del n :
  isdir d p = true → ins ≠ p → del ≠ p →
  isdir (<[ins := n]> (delete del d)) p = true.
Proof.
  unfold isdir. destruct p as [|a p]; [done|]. simpl. intros H ? ?.
  by rewrite lookup_insert_ne, lookup_delete_ne.
Qed.

Lemma isdir_ext (d d' : gmap path node) p :
  d' !! p = d !! p → isdir d' p = isdir d p.
Proof. unfold isdir. destruct p as [|a p]; [done|]. simpl. by intros ->. Qed.

Section BatchRun.
Context {pixel : Type} (P : imaging pixel).
Context (target_folder backup_folder : path).
Context (target_width target_height : Z).

Local Abbreviation original_path f := (os_path_join target_folder f).
Local Abbreviation backup_path f := (os_path_join backup_folder f).
Local Abbreviation sys := (im_platform P).
Local Abbreviation try_file :=
  (attempt P target_folder backup_folder target_width target_height).
Local Abbreviation process :=
  (process_file P target_folder backup_folder target_width target_height).
Local Abbreviation run :=
  (resize_replace_and_backup P target_folder backup_folder
     target_width target_height).
Local Abbreviation lines_of :=
  (batch_lines P target_folder backup_folder target_width target_height).

Lemma run_unfold w :
  run w
  = if isdir (disk w) target_folder then
      match ensure_backup_folder backup_folder w with
      | (Ok _, w1) =>
          match list_png_files target_folder w1 with
          | (Ok (Some png_files), w2) =>
              match for_each png_files process w2 with
              | (Ok _, w3) => print AllDone w3
              | (Raise e, w3) => (Raise e, w3)
              end
          | (Ok None, w2) => (Ok tt, w2)
          | (Raise e, w2) => (Raise e, w2)
          end
      | (Raise e, w1) => (Raise e, w1)
      end
    else print (ErrTargetMissing target_folder) w.
Proof.
  unfold resize_replace_and_backup. unfold bind at 1. unfold os_path_isdir.
  destruct (isdir (disk w) target_folder); simpl; [|done].
  unfold bind.
  destruct (ensure_backup_folder backup_folder w) as [[[]|e] w1]; [|done].
  by destruct (list_png_files target_folder w1) as [[[files|]|e] w2].
Qed.

Lemma process_file_disk f w :
  disk (process f w).2 = disk (try_file f w).2.
Proof.
  destruct (process f w) as [r w'] eqn:Hrun.
  apply process_file_result in Hrun as [(_ & _ & ->)|(_ & _ & ->)]; done.
Qed.

(** The loop visits every file whose name the console can print: it
    returns normally and has printed one line per file, in order, each
    telling how lines 81-94 ended for that file. *)
Lemma for_each_lines files w :
  Forall (λ f, out_encodes sys f = true) files →
  ∃ w',
    for_each files process w = (Ok tt, w')
    ∧ console w' = console w ++ lines_of files w.
Proof.
  revert w. induction files as [|f files IH]; intros w Henc; simpl.
  - exists w. split; [done|by rewrite app_nil_r].
  - apply Forall_cons in Henc as [Hf Henc].
    destruct (process f w) as [r wf] eqn:Hrun. simpl.
    pose proof Hrun as Hres.
    apply process_file_result in Hres as [(_ & -> & Hwf)|(? & _)];
      [|congruence].
    destruct (IH wf Henc) as (w' & Hloop & Hcon).
    exists w'. unfold bind. rewrite Hrun. split; [done|].
    rewrite Hcon. subst wf. simpl. by rewrite <- app_assoc.
Qed.

(** An exception leaves the loop only from a [print] of a file name, and
    then the completion line is not reached. *)
Lemma for_each_result files w r w' :
  for_each files process w = (r, w') →
  r = Ok tt
  ∨ (r = Raise UnicodeEncodeError
     ∧ ∃ f, f ∈ files ∧ out_encodes sys f = false).
Proof.
  revert w. induction files as [|f files IH]; intros w; simpl.
  { intros [= <- <-]. by left. }
  unfold bind. destruct (process f w) as [rf wf] eqn:Hrun.
  apply process_file_result in Hrun as [(_ & -> & _)|(Hf & -> & _)].
  - intros [?|(? & g & ? & ?)]%IH; [by left|right].
    split; [done|]. exists g. split; [by right|done].
  - intros [= <- <-]. right. split; [done|]. exists f. split; [left|done].
Qed.

(** C8 (no eligible files), as the code has it: when the source folder
    exists and the listing finds no name ending in .png, the routine prints
    the informational line and returns without moving or writing any file;
    the only change it can have made is the creation of the backup folder
    and of the directories on the way to it, which comes before the
    listing: every entry is as it was, and a new entry is a directory at
    the backup folder's path or at the start of it; with the backup folder
    already there the directory tree is unchanged. *)
Theorem no_png_files_moves_nothing w w1 :
  isdir (disk w) target_folder = true →
  ensure_backup_folder backup_folder w = (Ok tt, w1) →
  png_entries (disk w1) target_folder = [] →
  run w = (Ok tt, mkWorld (disk w1) (console w1 ++ [InfoNoPng target_folder]))
  ∧ only_creates_folder backup_folder (disk w) (disk w1)
  ∧ (isdir (disk w) backup_folder = true → w1 = w)
  ∧ (isdir (disk w) backup_folder = false →
     console w1 = console w ++ [InfoBackupCreated backup_folder]).
Proof.
  intros Htarget Hensure Hnone.
  destruct (ensure_backup_folder_inv _ _ _ _ Hensure) as (Hadds & Hsame & Hnew).
  destruct (Hnew eq_refl) as [_ Hcons].
  split_and!; [|done|by intros [_ ?]%Hsame|done].
  rewrite run_unfold, Htarget, Hensure.
  rewrite list_png_files_spec.
  - by rewrite Hnone.
  - eapply only_adds_dirs_isdir; [|done].
    by eapply only_creates_folder_adds.
Qed.

End BatchRun.
(** *** One file's processing leaves the other files alone *)

Section Isolation.
Context {pixel : Type} (P : imaging pixel).
Context (target_folder backup_folder : path).
Context (target_width target_height : Z).

Local Abbreviation original_path f := (os_path_join target_folder f).
Local Abbreviation backup_path f := (os_path_join backup_folder f).
Local Abbreviation sys := (im_platform P).
Local Abbreviation try_file :=
  (attempt P target_folder backup_folder target_width target_height).
Local Abbreviation process :=
  (process_file P target_folder backup_folder target_width target_height).
Local Abbreviation run :=
  (resize_replace_and_backup P target_folder backup_folder
     target_width target_height).
Local Abbreviation lines_of :=
  (batch_lines P target_folder backup_folder target_width target_height).
Local Abbreviation real_of d g :=
  (real_dst_of d (original_path g) (backup_path g)).

(** The paths that the processing of other names has to leave alone: the
    source folder and what leads to it, the backup folder, and the original
    and backup paths of the names in [others]. *)
Local Abbreviation beside others q :=
  (q `prefix_of` target_folder ∨ q = backup_folder
   ∨ ∃ f, others f ∧ (q = original_path f ∨ q = backup_path f)).

Lemma real_of_cases d g :
  real_of d g = backup_path g ∨ real_of d g = os_path_join (backup_path g) g.
Proof.
  unfold real_dst_of. rewrite basename_join. destruct (isdir _ _); auto.
Qed.

Lemma real_of_parent d g :
  isdir d backup_folder = true → isdir d (dirname (real_of d g)) = true.
Proof.
  intros Hb. unfold real_dst_of. rewrite basename_join.
  destruct (isdir d (backup_path g)) eqn:Hd; by rewrite dirname_join.
Qed.

(** A name with nothing behind it: the move raises and nothing changes. *)
Lemma attempt_on_missing g w :
  disk w !! original_path g = None →
  try_file g w
  = (Raise (if isdir (disk w) (backup_path g)
               && exists_ (disk w) (os_path_join (backup_path g) g)
            then ShutilError else FileNotFoundError), w).
Proof.
  intros Hnone. unfold attempt, bind.
  rewrite shutil_move_missing by (apply join_ne_nil || done).
  by rewrite basename_join.
Qed.

(** A directory: the move raises and nothing changes, or the directory
    goes to the backup folder with all it holds and cannot be opened as an
    image. *)
Lemma attempt_on_dir g w r w' :
  disk w !! original_path g = Some Dir →
  isdir (disk w) backup_folder = true →
  try_file g w = (r, w') →
  (∃ e, r = Raise e ∧ w' = w)
  ∨ (r = Raise IsADirectoryError
     ∧ shutil_move sys (original_path g) (backup_path g) w
       = (Ok (real_of (disk w) g), w')
     ∧ relative_to (original_path g) (backup_path g) = None
     ∧ relative_to (original_path g) (real_of (disk w) g) = None
     ∧ disk w !! real_of (disk w) g = None
     ∧ disk w' = rename_tree (original_path g) (real_of (disk w) g) (disk w)).
Proof.
  intros Hdir Hbackup. unfold attempt, bind.
  destruct (shutil_move _ _ _ w) as [r1 w1] eqn:Hmove.
  pose proof Hmove as Hmove'.
  apply shutil_move_dir in Hmove'
    as [(e & -> & ->)|[(-> & -> & Heq)|(-> & Hrel & Hrel' & Hfree & Hd1)]];
    [| | |apply join_ne_nil|done|by apply real_of_parent].
  - intros [= <- <-]. left. eauto.
  - unfold transform_backup, image_open. io_unfold.
    rewrite node_at_join, <- Heq, Hdir. intros [= <- <-]. left. eauto.
  - unfold transform_backup, image_open. io_unfold.
    rewrite node_at_join, Hd1.
    assert (Hbd : rename_tree (original_path g) (real_of (disk w) g) (disk w)
                    !! backup_path g = Some Dir).
    { destruct (isdir (disk w) (backup_path g)) eqn:Hisd.
      - rewrite lookup_rename_tree_other; [| done |].
        + apply isdir_true in Hisd. by rewrite node_at_join in Hisd.
        + apply relative_to_None_prefix. intros Hp%prefix_length.
          unfold real_dst_of in Hp. rewrite Hisd, !join_length in Hp. lia.
      - unfold real_dst_of. rewrite Hisd.
        pose proof (lookup_rename_tree_moved (original_path g) (backup_path g)
                      (disk w) [] Dir) as Hmoved.
        rewrite !app_nil_r in Hmoved. by apply Hmoved. }
    rewrite Hbd. intros [= <- <-]. right. done.
Qed.

(** What lines 81-94 change on disk: nothing; or, for a regular file,
    its original path and the place the move puts it; or, for a directory, it
    is moved with all it holds to a place that was free. *)
Lemma attempt_changes g w r w' :
  isdir (disk w) backup_folder = true →
  try_file g w = (r, w') →
  disk w' = disk w
  ∨ (isdir (disk w) (original_path g) = false
     ∧ isdir (disk w) (real_of (disk w) g) = false
     ∧ ∀ q, q ≠ original_path g → q ≠ real_of (disk w) g →
            disk w' !! q = disk w !! q)
  ∨ (relative_to (original_path g) (backup_path g) = None
     ∧ disk w !! real_of (disk w) g = None
     ∧ disk w' = rename_tree (original_path g) (real_of (disk w) g) (disk w)).
Proof.
  intros Hbackup Hrun.
  destruct (disk w !! original_path g) as [[content|]|] eqn:Hentry.
  - assert (Hnd : isdir (disk w) (original_path g) = false)
      by (eapply isdir_file; [apply join_ne_nil|done]).
    destruct (attempt_on_file P _ _ _ _ g content w r w' Hentry Hrun)
      as [(e & _ & -> & _)
         |[(e & bytes & _ & _ & _ & _ & Hr & ->)
          |[(e & _ & _ & _ & Hr & _ & ->)
           |[(e & w1 & written & _ & _ & _ & Hr & _ & ->)
            |(w1 & rz & written & _ & _ & Hr & _ & _ & _ & _ & Hd1 & ->)]]]].
    + by left.
    + right. left. split_and!; [done..|]. intros q _ ?.
      by rewrite lookup_insert_ne.
    + right. left. split_and!; [done..|]. intros q ? ?.
      by rewrite lookup_insert_ne, lookup_delete_ne.
    + right. left. split_and!; [done|by rewrite <- Hr|]. intros q ? ?.
      by rewrite !lookup_insert_ne, lookup_delete_ne.
    + right. left.
      assert (Hreal : real_of (disk w) g = backup_path g).
      { unfold real_dst_of. by rewrite Hr. }
      rewrite Hreal, Hd1. split_and!; [done..|]. intros q ? ?.
      by rewrite !lookup_insert_ne, lookup_delete_ne.
  - destruct (attempt_on_dir g w r w' Hentry Hbackup Hrun)
      as [(e & _ & ->)|(_ & _ & ? & _ & ? & ?)]; [by left|].
    right. right. done.
  - rewrite attempt_on_missing in Hrun by done.
    injection Hrun as _ <-. by left.
Qed.

Lemma attempt_keeps g w r w' q :
  isdir (disk w) backup_folder = true →
  folder_reachable (disk w) target_folder →
  try_file g w = (r, w') →
  beside (λ f, f ≠ g) q →
  disk w' !! q = disk w !! q.
Proof.
  intros Hbackup Hreach Hrun Hq.
  assert (Hlen : ∀ p, real_of (disk w) g `prefix_of` p →
                      length backup_folder < length p).
  { intros p Hp%prefix_length.
    destruct (real_of_cases (disk w) g) as [Hr|Hr];
      rewrite Hr, ?join_length in Hp; lia. }
  assert (Hnamed : ∀ f folder, f ≠ g →
            real_of (disk w) g ≠ os_path_join folder f).
  { intros f folder Hfg Heq.
    destruct (real_of_cases (disk w) g) as [Hr|Hr];
      rewrite Hr in Heq; by apply join_inj in Heq as [_ ?]. }
  destruct (attempt_changes g w r w' Hbackup Hrun)
    as [->|[(Hfile & Hnd & Hframe)|(Hrel & Hfree & ->)]]; [done|..].
  - (* a regular file *)
    apply Hframe.
    + destruct Hq as [Hp|[->|(f & Hfg & [->| ->])]].
      * intros ->. apply prefix_length in Hp.
        rewrite join_length in Hp. lia.
      * intros Heq. by rewrite <- Heq, Hbackup in Hfile.
      * by intros [_ ?]%join_inj.
      * by intros [_ ?]%join_inj.
    + destruct Hq as [Hp|[->|(f & Hfg & [->| ->])]].
      * intros ->. by rewrite (Hreach _ Hp) in Hnd.
      * intros Heq. by rewrite <- Heq, Hbackup in Hnd.
      * intros Heq. by eapply Hnamed.
      * intros Heq. by eapply Hnamed.
  - (* a directory *)
    assert (Hnot_above : ¬ real_of (disk w) g `prefix_of` target_folder).
    { intros Hp. apply Hreach, isdir_true in Hp.
      rewrite node_at_lookup, Hfree in Hp; [done|].
      destruct (real_of_cases (disk w) g) as [Hr|Hr]; rewrite Hr;
        apply join_ne_nil. }
    assert (Hsrc_above : ¬ original_path g `prefix_of` backup_folder).
    { intros Hp. apply relative_to_None_prefix in Hrel. apply Hrel.
      etrans; [exact Hp|]. by exists [g]. }
    apply lookup_rename_tree_other; apply relative_to_None_prefix;
      destruct Hq as [Hp|[->|(f & Hfg & [->| ->])]].
    + intros Hp'%prefix_length. apply prefix_length in Hp.
      rewrite join_length in Hp'. lia.
    + done.
    + intros Hp%prefix_length_eq; [|by rewrite !join_length].
      by apply join_inj in Hp as [_ ?].
    + intros [Hp|Hp]%prefix_join_inv; [|done].
      by apply join_inj in Hp as [_ ?].
    + intros Hp'. apply Hnot_above. by etrans.
    + intros Hp%Hlen. lia.
    + intros [Hp|Hp]%prefix_join_inv; [by eapply Hnamed|done].
    + intros [Hp|Hp]%prefix_join_inv; [by eapply Hnamed|].
      apply Hlen in Hp. lia.
Qed.

(** The folders stay in place while files are processed. *)
Lemma attempt_keeps_folders g w r w' :
  isdir (disk w) backup_folder = true →
  folder_reachable (disk w) target_folder →
  try_file g w = (r, w') →
  isdir (disk w') backup_folder = true
  ∧ folder_reachable (disk w') target_folder.
Proof.
  intros Hbackup Hreach Hrun. split.
  - rewrite <- Hbackup. apply isdir_ext.
    eapply attempt_keeps; eauto.
  - intros p Hp. rewrite <- (Hreach p Hp). apply isdir_ext.
    eapply attempt_keeps; eauto.
Qed.

Lemma for_each_keeps files w r w' q :
  isdir (disk w) backup_folder = true →
  folder_reachable (disk w) target_folder →
  for_each files process w = (r, w') →
  beside (λ f, f ∉ files) q →
  disk w' !! q = disk w !! q.
Proof.
  revert w. induction files as [|g rest IH]; intros w Hbackup Hreach; simpl.
  { by intros [= <- <-]. }
  unfold bind. destruct (process g w) as [rg wg] eqn:Hg.
  pose proof (process_file_disk P target_folder backup_folder
                target_width target_height g w) as Hdisk.
  rewrite Hg in Hdisk. simpl in Hdisk.
  destruct (try_file g w) as [ra wa] eqn:Ha. simpl in Hdisk.
  destruct (attempt_keeps_folders g w ra wa Hbackup Hreach Ha) as [Hb' Hr'].
  rewrite <- Hdisk in Hb', Hr'.
  intros Hloop Hq.
  assert (Hstep : disk wg !! q = disk w !! q).
  { rewrite Hdisk. eapply attempt_keeps; eauto.
    destruct Hq as [?|[?|(f & Hf & ?)]]; auto.
    right. right. exists f. split; [|done]. intros ->. apply Hf. left. }
  destruct rg as [[]|e].
  - rewrite <- Hstep. eapply IH; eauto.
    destruct Hq as [?|[?|(f & Hf & ?)]]; auto.
    right. right. exists f. split; [|done]. intros ?. apply Hf. by right.
  - by injection Hloop as _ <-.
Qed.

(** A healthy file is processed to the end, whatever the state of the
    other entries. *)
Lemma attempt_healthy f content written w :
  isdir (disk w) target_folder = true →
  isdir (disk w) backup_folder = true →
  healthy P target_folder backup_folder target_width target_height
    (disk w) f content written →
  try_file f w
  = (Ok tt,
     mkWorld (<[original_path f := File written]>
                (<[backup_path f := File content]>
                   (delete (original_path f) (disk w))))
             (console w)).
Proof.
  intros Htarget Hbackup (Hfile & Hnd & Href & Hfmt & rz & Hpipe & Henc).
  assert (Hmove : shutil_move sys (original_path f) (backup_path f) w
                  = (Ok (backup_path f),
                     mkWorld (<[backup_path f := File content]>
                                (delete (original_path f) (disk w)))
                             (console w))).
  { unfold shutil_move, move_to, os_rename. io_unfold. rewrite Hnd.
    rewrite !node_at_join, Hfile, Href, dirname_join, Hbackup.
    unfold isdir in Hnd. rewrite node_at_join in Hnd.
    by destruct (disk w !! backup_path f) as [[|]|]. }
  unfold attempt, bind. rewrite Hmove.
  unfold pipeline, rbind in Hpipe.
  destruct (im_decode P content) as [img|] eqn:Hdec; [|done].
  destruct (trim_transparent_edges _ _ img) as [t|] eqn:Htrim; [|done].
  unfold transform_backup, image_open, image_save. io_unfold.
  rewrite !node_at_join. cbn [disk console].
  rewrite lookup_insert_eq, Hdec, Htrim, Hpipe. cbn [disk console].
  rewrite basename_join, Hfmt, node_at_join.
  destruct (decide (target_folder = backup_folder)) as [<-|Hdiff].
  - rewrite lookup_insert_eq, Henc. done.
  - assert (Hob : original_path f ≠ backup_path f)
      by (intros [? _]%join_inj; done).
    rewrite lookup_insert_ne, lookup_delete_eq by done.
    rewrite dirname_join, Henc.
    assert (Hdir : isdir (<[backup_path f := File content]>
                            (delete (original_path f) (disk w)))
                     target_folder = true).
    { apply isdir_insert_delete_other; [done| |apply join_ne_folder].
      intros Heq. rewrite Heq in Hnd. congruence. }
    by rewrite Hdir.
Qed.

Lemma for_each_isolation files w w' :
  NoDup files →
  Forall (λ f, out_encodes sys f = true) files →
  isdir (disk w) backup_folder = true →
  folder_reachable (disk w) target_folder →
  for_each files process w = (Ok tt, w') →
  ∀ f content written,
    f ∈ files →
    healthy P target_folder backup_folder target_width target_height
      (disk w) f content written →
    FileDone f ∈ lines_of files w
    ∧ disk w' !! original_path f = Some (File written)
    ∧ (target_folder ≠ backup_folder →
       disk w' !! backup_path f = Some (File content)).
Proof.
  revert w. induction files as [|g rest IH];
    intros w Hnd Henc Hbackup Hreach Hloop f content written Hf Hh.
  { by apply elem_of_nil in Hf. }
  apply NoDup_cons in Hnd as [Hg Hnd].
  apply Forall_cons in Henc as [Hgenc Henc].
  simpl in Hloop |- *. unfold bind in Hloop.
  destruct (process g w) as [rg wg] eqn:Hrun.
  pose proof (process_file_disk P target_folder backup_folder
                target_width target_height g w) as Hdisk.
  rewrite Hrun in Hdisk. simpl in Hdisk.
  destruct (try_file g w) as [ra wa] eqn:Ha. simpl in Hdisk |- *.
  destruct (attempt_keeps_folders g w ra wa Hbackup Hreach Ha) as [Hb' Hr'].
  rewrite <- Hdisk in Hb', Hr'.
  destruct rg as [[]|e]; [|done].
  apply elem_of_cons in Hf as [->|Hf].
  - (* the healthy file is processed now; the rest leave it alone *)
    assert (Htarget : isdir (disk w) target_folder = true)
      by (by apply Hreach).
    rewrite (attempt_healthy g content written w Htarget Hbackup Hh) in Ha.
    injection Ha as <- <-. simpl in Hdisk.
    split_and!.
    + left.
    + rewrite (for_each_keeps rest wg (Ok tt) w' (original_path g));
        [| done.. |].
      * by rewrite Hdisk, lookup_insert_eq.
      * right. right. exists g. auto.
    + intros Hdiff.
      rewrite (for_each_keeps rest wg (Ok tt) w' (backup_path g));
        [| done.. |].
      * rewrite Hdisk, lookup_insert_ne, lookup_insert_eq; [done|].
        intros [? _]%join_inj. done.
      * right. right. exists g. auto.
  - (* another file is processed first; the healthy one is still healthy *)
    assert (Hfg : f ≠ g) by (intros ->; done).
    assert (Hh' : healthy P target_folder backup_folder
                    target_width target_height (disk wg) f content written).
    { destruct Hh as (Hfile & Hnotdir & Href & Hfmt & Hsteps).
      split_and!; [| |done..].
      - rewrite Hdisk.
        rewrite (attempt_keeps g w ra wa (original_path f)); eauto 10.
      - rewrite <- Hnotdir. apply isdir_ext. rewrite Hdisk.
        apply (attempt_keeps g w ra wa (backup_path f)); eauto 10. }
    destruct (IH wg Hnd Henc Hb' Hr' Hloop f content written Hf Hh')
      as (Hdone & Ho & Hb).
    split_and!; [by right|done..].
Qed.


End Isolation.
(** * The properties on sample inputs *)

Example is_png_examples :
  is_png "a.png" = true ∧ is_png "b.PNG" = true ∧ is_png ".png" = true
  ∧ is_png "png" = false ∧ is_png "a.png.txt" = false
  ∧ is_png "notes.txt" = false.
Proof. repeat split. Qed.

Example splitext_examples :
  splitext "a.png" = ("a", ".png")%string
  ∧ splitext "a.b.PNG" = ("a.b", ".PNG")%string
  ∧ splitext ".png" = (".png", "")%string
  ∧ splitext "..png" = ("..png", "")%string
  ∧ splitext "notes" = ("notes", "")%string.
Proof. repeat split. Qed.

(** The whole routine on the three files: both good images are done, the
    corrupt one is reported, and the text file is not looked at. *)
Example run_three_files :
  let out := resize_replace_and_backup toy originals used 4 2 three_files in
  out.1 = Ok tt
  ∧ console out.2
    = [InfoBackupCreated used; InfoCount 3; FileDone "c.png";
       FileDone "a.png"; FileError "b.PNG" UnidentifiedImageError; AllDone]
  ∧ disk out.2 !! os_path_join used "b.PNG" = Some (File corrupt_bytes)
  ∧ disk out.2 !! os_path_join originals "b.PNG" = None
  ∧ disk out.2 !! os_path_join originals "notes.txt"
    = Some (File corrupt_bytes).
Proof. repeat split; vm_compute; reflexivity. Qed.

(** A directory whose name ends in .png is listed too: it is moved to the
    backup folder with what it contains, and opening it fails. *)
Example run_directory_entry :
  let out := process_file toy originals used 4 2 "d.png" directory_entry in
  console out.2 = [FileError "d.png" IsADirectoryError]
  ∧ disk out.2 !! (used ++ ["d.png"; "inner"]%string)
    = Some (File corrupt_bytes)
  ∧ disk out.2 !! (used ++ ["d.png"%string]) = Some Dir
  ∧ disk out.2 !! (originals ++ ["d.png"%string]) = None
  ∧ disk out.2 !! (originals ++ ["d.png"; "inner"]%string) = None.
Proof. repeat split; vm_compute; reflexivity. Qed.

(** A file whose whole name is the extension passes the filter, is moved
    to the backup folder and is then refused by [save], which finds no
    extension in the name. *)
Example run_bare_extension :
  let out := resize_replace_and_backup toy originals used 4 2 bare_extension in
  out.1 = Ok tt
  ∧ console out.2 = [InfoCount 1; FileError ".png" ValueError; AllDone]
  ∧ disk out.2 !! os_path_join used ".png" = Some (File framed_bytes)
  ∧ disk out.2 !! os_path_join originals ".png" = None.
Proof. repeat split; vm_compute; reflexivity. Qed.

(** The backup folder on a full file system: the rename is refused, the
    copy stops short, and the file is reported as failed with the original
    still in place and the start of a copy at the backup path. *)
Example run_other_device :
  let out := process_file toy_other_device originals used 4 2 "a.png"
               three_files_ready in
  out.1 = Ok tt
  ∧ last (console out.2) = Some (FileError "a.png" OSError)
  ∧ disk out.2 !! os_path_join originals "a.png" = Some (File framed_bytes)
  ∧ disk out.2 !! os_path_join used "a.png"
    = Some (File (take 2 framed_bytes)).
Proof. repeat split; vm_compute; reflexivity. Qed.

Lemma originals_ne_used : originals ≠ used.
Proof. discriminate. Qed.

Lemma trim_fully_transparent_noop_witness :
  Forall (Forall (λ p, chan_a p = 0%Z)) (pixels transparent)
  ∧ trim_transparent_edges chan_a clear transparent = Ok transparent.
Proof.
  assert (H : Forall (Forall (λ p, chan_a p = 0%Z)) (pixels transparent))
    by (repeat constructor).
  split; [exact H|].
  exact (trim_fully_transparent_noop chan_a clear transparent H).
Defined.

Lemma trim_idempotent_witness :
  wf_image framed
  ∧ ∃ t, trim_transparent_edges chan_a clear framed = Ok t
         ∧ trim_transparent_edges chan_a clear t = Ok t.
Proof.
  assert (H : wf_image framed) by (split; [reflexivity|repeat constructor]).
  split; [exact H|].
  exact (trim_idempotent chan_a clear framed H).
Defined.

Lemma trim_never_enlarges_witness :
  wf_image framed
  ∧ ∃ t, trim_transparent_edges chan_a clear framed = Ok t
         ∧ width t ≤ 3 ∧ height t ≤ 3.
Proof.
  assert (H : wf_image framed) by (split; [reflexivity|repeat constructor]).
  split; [exact H|].
  destruct (trim_never_enlarges chan_a clear framed H)
    as (t & Ht & Hw & Hh & _).
  exists t. split_and!; [exact Ht|exact Hw|exact Hh].
Defined.

Lemma missing_source_folder_returns_early_witness :
  isdir (disk bare) originals = false
  ∧ resize_replace_and_backup toy originals used 1290 2796 bare
    = (Ok tt, mkWorld (disk bare) (console bare ++ [ErrTargetMissing originals])).
Proof.
  assert (H : isdir (disk bare) originals = false) by reflexivity.
  split; [exact H|].
  exact (missing_source_folder_returns_early toy originals used 1290 2796 bare H).
Defined.

Lemma processed_file_has_target_size_witness :
  let out := process_file toy originals used 4 2 "a.png" three_files_ready in
  out.1 = Ok tt
  ∧ last (console out.2) = Some (FileDone "a.png")
  ∧ ∃ rz written,
      disk out.2 !! os_path_join originals "a.png" = Some (File written)
      ∧ im_encode toy rz = (written, None)
      ∧ Z.of_nat (width rz) = 4%Z ∧ Z.of_nat (height rz) = 2%Z.
Proof.
  intros out.
  assert (H0 : out.1 = Ok tt) by (vm_compute; reflexivity).
  assert (H1 : process_file toy originals used 4 2 "a.png" three_files_ready
               = (Ok tt, out.2)) by (vm_compute; reflexivity).
  assert (H2 : last (console out.2) = Some (FileDone "a.png"))
    by (vm_compute; reflexivity).
  split; [exact H0|]. split; [exact H2|].
  destruct (processed_file_has_target_size toy originals used 4 2 "a.png"
              three_files_ready out.2 H1 H2)
    as (rz & written & Hd & He & Hw & Hh & _).
  exists rz, written. split_and!; [exact Hd|exact He|exact Hw|exact Hh].
Defined.

Lemma backup_happens_before_processing_witness :
  backed_up_slot_empty originals used "b.PNG" corrupt_bytes
    (disk (process_file toy originals used 4 2 "b.PNG" three_files_ready).2).
Proof.
  assert (Hfile : disk three_files_ready !! os_path_join originals "b.PNG"
                  = Some (File corrupt_bytes)) by (vm_compute; reflexivity).
  set (moved := shutil_move plain (os_path_join originals "b.PNG")
                  (os_path_join used "b.PNG") three_files_ready).
  assert (Hmove : moved = (Ok (os_path_join used "b.PNG"), moved.2))
    by (vm_compute; reflexivity).
  destruct (backup_happens_before_processing toy originals used 4 2
              "b.PNG" corrupt_bytes three_files_ready _ _
              originals_ne_used Hfile Hmove) as [Hslot H].
  assert (Htr : transform_backup toy 4 2 (os_path_join originals "b.PNG")
                  (os_path_join used "b.PNG") moved.2
                = (Raise UnidentifiedImageError, moved.2))
    by (vm_compute; reflexivity).
  destruct (H _ _ Htr) as (_ & Hrun).
  rewrite Hrun. exact Hslot.
Defined.

Lemma process_file_four_outcomes_witness :
  ∃ d' line,
    process_file toy originals used 4 2 "a.png" three_files_ready
    = (Ok tt, mkWorld d' (console three_files_ready ++ [line])).
Proof.
  assert (Hfile : disk three_files_ready !! os_path_join originals "a.png"
                  = Some (File framed_bytes)) by (vm_compute; reflexivity).
  destruct (process_file_four_outcomes toy originals used 4 2
              "a.png" framed_bytes three_files_ready
              originals_ne_used Hfile) as (d' & line & Hrun & _).
  exists d', line. exact Hrun.
Defined.

Lemma no_png_files_moves_nothing_witness :
  resize_replace_and_backup toy originals used 1290 2796 no_images
  = (Ok tt, mkWorld (disk no_images_ready)
              (console no_images_ready ++ [InfoNoPng originals]))
  ∧ only_creates_folder used (disk no_images) (disk no_images_ready).
Proof.
  assert (H1 : isdir (disk no_images) originals = true) by reflexivity.
  assert (H2 : ensure_backup_folder used no_images = (Ok tt, no_images_ready))
    by (vm_compute; reflexivity).
  assert (H3 : png_entries (disk no_images_ready) originals = [])
    by (vm_compute; reflexivity).
  destruct (no_png_files_moves_nothing toy originals used 1290 2796
              no_images no_images_ready H1 H2 H3) as (Hrun & Hadds & _).
  split; [exact Hrun|exact Hadds].
Defined.

Lemma folder_reachable_one (d : gmap path node) (name : string) :
  isdir d [name] = true → folder_reachable d [name].
Proof.
  intros Hd p [rest Hp]. destruct p as [|a [|b p]]; [done| |done].
  by injection Hp as <- _.
Qed.


(** ** Where the specification and the code part ways *)

(** C2, as the specification words it, at a folder used as its own backup
    folder and a file that holds a CMYK image: the move succeeds without
    moving anything, the image is decoded, trimmed and resized, and [save]
    empties the file before the PNG encoder refuses the mode; the backup
    path, which is the original path, is left empty, and the original bytes
    are nowhere on disk. *)
Lemma same_folder_loses_original :
  let out := process_file toy_cmyk originals originals 4 2 "a.png" one_file in
  disk one_file !! os_path_join originals "a.png" = Some (File cmyk_bytes)
  ∧ shutil_move plain (os_path_join originals "a.png")
      (os_path_join originals "a.png") one_file
    = (Ok (os_path_join originals "a.png"), one_file)
  ∧ (∃ rz, pipeline toy_cmyk 4 2 cmyk_bytes = Ok rz)
  ∧ (transform_backup toy_cmyk 4 2 (os_path_join originals "a.png")
       (os_path_join originals "a.png") one_file).1 = Raise OSError
  ∧ out.1 = Ok tt
  ∧ console out.2 = [FileError "a.png" OSError]
  ∧ disk out.2 !! os_path_join originals "a.png" = Some (File [])
  ∧ ∀ q, disk out.2 !! q ≠ Some (File cmyk_bytes).
Proof.
  intros out.
  assert (Hd : disk out.2
               = <[os_path_join originals "a.png" := File []]>
                   (<[originals := Dir]> ∅)) by (vm_compute; reflexivity).
  split_and!; try (vm_compute; reflexivity).
  - eexists. vm_compute. reflexivity.
  - intros q. rewrite Hd.
    destruct (decide (q = os_path_join originals "a.png")) as [->|Hq1].
    { rewrite lookup_insert_eq. discriminate. }
    rewrite lookup_insert_ne by done.
    destruct (decide (q = originals)) as [->|Hq2].
    { rewrite lookup_insert_eq. discriminate. }
    rewrite lookup_insert_ne by done. by rewrite lookup_empty.
Qed.

(** C3, as the specification words it, at a corrupt file: after its
    processing neither of the two stated outcomes holds, for the original
    path is vacant. *)
Lemma corrupt_file_fits_neither_outcome :
  let d' := disk (process_file toy originals used 4 2 "b.PNG"
                    three_files_ready).2 in
  disk three_files_ready !! os_path_join originals "b.PNG"
  = Some (File corrupt_bytes)
  ∧ ¬ ((d' !! os_path_join used "b.PNG" = Some (File corrupt_bytes)
        ∧ ∃ transformed,
            d' !! os_path_join originals "b.PNG" = Some (File transformed))
       ∨ (d' !! os_path_join originals "b.PNG" = Some (File corrupt_bytes)
          ∧ d' !! os_path_join used "b.PNG" = None)).
Proof.
  intros d'.
  assert (Hgone : d' !! os_path_join originals "b.PNG" = None)
    by (vm_compute; reflexivity).
  split; [vm_compute; reflexivity|].
  intros [[_ [transformed H]]|[H _]]; rewrite Hgone in H; discriminate.
Qed.


(** C8, as the specification words it, at a source folder without images
    and no backup folder: the run changes the directory tree, it creates
    the backup folder. *)
Lemma no_images_run_creates_backup_folder :
  isdir (disk no_images) originals = true
  ∧ png_entries (disk no_images) originals = []
  ∧ (resize_replace_and_backup toy originals used 1290 2796 no_images).1
    = Ok tt
  ∧ disk (resize_replace_and_backup toy originals used 1290 2796 no_images).2
    ≠ disk no_images.
Proof.
  split_and!; try (vm_compute; reflexivity).
  intros H. apply (f_equal (λ d, d !! used)) in H.
  vm_compute in H. discriminate.
Qed.

(** * Further properties of the trimming function *)

Section TrimMore.
Context {pixel : Type} (alpha : pixel → Z) (blank : pixel).
Implicit Types img t : Image pixel.

Lemma ndarray_any_true arr :
  ndarray_any arr = true ↔ ∃ k, k ∈ arr ∧ 0 < k.
Proof.
  unfold ndarray_any. rewrite existsb_exists. split.
  - intros (k & Hin & Hk). exists k. split; [by apply list_elem_of_In|].
    destruct k; [done|lia].
  - intros (k & Hin & Hk). exists k. split; [by apply list_elem_of_In|].
    destruct k; [lia|done].
Qed.

(** The guard lets an image through exactly when it has content below the
    first row and content right of the first column. *)
Lemma passes_guard_content img :
  wf_image img →
  passes_guard alpha img = true
  ↔ has_content alpha img (λ _ y, 0 < y)
    ∧ has_content alpha img (λ x _, 0 < x).
Proof.
  intros Hwf. unfold passes_guard. rewrite andb_true_iff, !ndarray_any_true.
  split.
  - intros [(y & Hy & Hpos) (x & Hx & Hxpos)]. split.
    + apply elem_of_rows in Hy as (x' & p & Hat & Hp). by exists x', y, p.
    + apply elem_of_cols in Hx as (_ & y' & p & Hat & Hp). by exists x, y', p.
  - intros [(x & y & p & Hat & Hp & Hy) (x' & y' & p' & Hat' & Hp' & Hx)].
    split.
    + exists y. split; [|done]. apply elem_of_rows. eauto.
    + exists x'. split; [|done]. apply elem_of_cols.
      split; [by eapply pixel_at_bounds|eauto].
Qed.

(** X1: once line 19 has the pixel data (loading it belongs to the opening
    of the file here), lines 22-41 always return an image: neither the
    indexing of the row and column arrays nor the crop can raise. *)
Theorem trim_never_raises img :
  ∃ t, trim_transparent_edges alpha blank img = Ok t.
Proof. apply trim_total. Qed.

(** X2: for an image with content below the first row and content right
    of the first column, the result is the tight box: every pixel with
    alpha above 0 is kept, at its place shifted by the crop offset, and
    the first and last row and the first and last column of the result
    each hold a pixel with alpha above 0. *)
Theorem trim_is_tight_past_guard img :
  wf_image img →
  has_content alpha img (λ _ y, 0 < y) →
  has_content alpha img (λ x _, 0 < x) →
  ∃ t, trim_transparent_edges alpha blank img = Ok t
    ∧ (∀ x y p, pixel_at img x y = Some p → (0 < alpha p)%Z →
         (trim_offset alpha img).1 ≤ x ∧ (trim_offset alpha img).2 ≤ y
         ∧ pixel_at t (x - (trim_offset alpha img).1)
                      (y - (trim_offset alpha img).2) = Some p)
    ∧ has_content alpha t (λ _ y, y = 0)
    ∧ has_content alpha t (λ _ y, y = height t - 1)
    ∧ has_content alpha t (λ x _, x = 0)
    ∧ has_content alpha t (λ x _, x = width t - 1).
Proof.
  intros Hwf Hrow Hcol.
  assert (Hg : passes_guard alpha img = true)
    by (by apply passes_guard_content).
  destruct (trim_cases alpha blank img)
    as [(Hg' & _)|(l & u & r & b & _ & Hl & Hr & Hu & Hb & H & Ho)];
    [congruence|].
  destruct (trim_total alpha blank img) as [t Ht]. exists t.
  split; [done|]. rewrite H in Ht. rewrite Ho. simpl.
  pose proof (crop_inv _ _ _ _ _ _ _ Ht) as (? & ? & Hw & Hh & _ & _).
  destruct (trim_crop_tight alpha blank _ _ _ _ _ _ Hwf Hl Hr Hu Hb Ht)
    as (Hr0 & Hrb & Hc0 & Hcr).
  split_and!.
  - intros x y p Hat Hp.
    destruct (trim_crop_keeps_opaque alpha blank _ _ _ _ _ _ _ _ _
                Hwf Hl Hr Hu Hb Ht Hat Hp) as (? & ? & ?).
    split_and!; [lia|lia|done].
  - apply elem_of_rows in Hr0 as (x & p & ? & ?). by exists x, 0, p.
  - apply elem_of_rows in Hrb as (x & p & ? & ?). exists x, (b - u), p.
    split_and!; [done|done|lia].
  - apply elem_of_cols in Hc0 as (_ & y & p & ? & ?). by exists 0, y, p.
  - apply elem_of_cols in Hcr as (_ & y & p & ? & ?). exists (r - l), y, p.
    split_and!; [done|done|lia].
Qed.

(** X3: an image whose pixels with alpha above 0 all lie in the first row,
    or all lie in the first column, is returned as it is, transparent
    margins included. *)
Theorem trim_skips_first_row_or_column_content img :
  (∀ x y p, pixel_at img x y = Some p → (0 < alpha p)%Z → y = 0)
  ∨ (∀ x y p, pixel_at img x y = Some p → (0 < alpha p)%Z → x = 0) →
  trim_transparent_edges alpha blank img = Ok img.
Proof.
  intros Hconf.
  destruct (trim_cases alpha blank img)
    as [(_ & H & _)|(l & u & r & b & Hg & _)]; [done|].
  unfold passes_guard in Hg.
  apply andb_true_iff in Hg as [Hr Hc].
  apply ndarray_any_true in Hr as (y & Hy & Hypos).
  apply ndarray_any_true in Hc as (x & Hx & Hxpos).
  apply elem_of_rows in Hy as (x' & p & Hat & Hp).
  apply elem_of_cols in Hx as (_ & y' & p' & Hat' & Hp').
  destruct Hconf as [Hrow|Hcol].
  - pose proof (Hrow _ _ _ Hat Hp). lia.
  - pose proof (Hcol _ _ _ Hat' Hp'). lia.
Qed.

(** X4: the trimmed image has a full pixel grid, and it is not empty when
    the input is not. *)
Theorem trim_keeps_grid img t :
  wf_image img →
  trim_transparent_edges alpha blank img = Ok t →
  wf_image t
  ∧ (0 < width img → 0 < height img → 0 < width t ∧ 0 < height t).
Proof.
  intros Hwf Ht. split; [by eapply trim_wf|].
  destruct (trim_cases alpha blank img)
    as [(_ & H & _)|(l & u & r & b & _ & Hl & Hr & Hu & Hb & H & _)];
    rewrite H in Ht.
  - by injection Ht as <-.
  - pose proof (cols_bounds alpha _ _ _ _ Hl Hr (last_in_cols alpha _ _ Hr)).
    pose proof (rows_bounds alpha _ _ _ _ Hu Hb (last_in_rows alpha _ _ Hb)).
    apply crop_inv in Ht as (? & ? & -> & -> & _). lia.
Qed.

(** X5: an image with content in its first row, its last row, its first
    column and its last column has nothing to trim and is returned
    unchanged. *)
Theorem trim_fixes_images_with_content_on_every_edge img :
  wf_image img →
  has_content alpha img (λ _ y, y = 0) →
  has_content alpha img (λ _ y, y = height img - 1) →
  has_content alpha img (λ x _, x = 0) →
  has_content alpha img (λ x _, x = width img - 1) →
  trim_transparent_edges alpha blank img = Ok img.
Proof.
  intros Hwf (x0 & ? & p0 & Hat0 & Hp0 & ->) (xb & ? & pb & Hatb & Hpb & ->)
    (? & y0 & q0 & Hatl & Hq0 & ->) (? & yr & qr & Hatr & Hqr & ->).
  destruct (trim_cases alpha blank img)
    as [(_ & H & _)|(l & u & r & b & _ & Hl & Hr & Hu & Hb & -> & _)];
    [done|].
  assert (H0r : 0 ∈ non_transparent_rows alpha img)
    by (apply elem_of_rows; eauto).
  assert (Hbr : height img - 1 ∈ non_transparent_rows alpha img)
    by (apply elem_of_rows; eauto).
  assert (H0c : 0 ∈ non_transparent_cols alpha img).
  { apply elem_of_cols. split; [by eapply pixel_at_bounds|eauto]. }
  assert (Hrc : width img - 1 ∈ non_transparent_cols alpha img).
  { apply elem_of_cols. split; [by eapply pixel_at_bounds|eauto]. }
  pose proof (rows_bounds alpha _ _ _ _ Hu Hb H0r).
  pose proof (rows_bounds alpha _ _ _ _ Hu Hb Hbr).
  pose proof (cols_bounds alpha _ _ _ _ Hl Hr H0c).
  pose proof (cols_bounds alpha _ _ _ _ Hl Hr Hrc).
  pose proof (last_in_rows alpha _ _ Hb) as (x' & p' & Hat' & _)%elem_of_rows.
  pose proof (last_in_cols alpha _ _ Hr) as (Hrw & _)%elem_of_cols.
  apply (pixel_at_bounds _ _ _ _ Hwf) in Hat' as [_ Hbh].
  replace l with 0 by lia. replace u with 0 by lia.
  replace (r + 1) with (width img) by lia.
  replace (b + 1) with (height img) by lia.
  by apply crop_full.
Qed.

End TrimMore.

Section Recolouring.
Context {pixel pixel' : Type} (f : pixel → pixel').
Context (alpha : pixel → Z) (alpha' : pixel' → Z) (blank : pixel).
Hypothesis keeps_alpha : ∀ p, alpha' (f p) = alpha p.

Lemma alpha_channel_map_image img :
  alpha_channel alpha' (map_image f img) = alpha_channel alpha img.
Proof.
  unfold alpha_channel, map_image. simpl. rewrite map_map.
  apply map_ext. intros row. rewrite map_map. by apply map_ext.
Qed.

Lemma getpixel_map_image img x y :
  getpixel (f blank) (map_image f img) x y = f (getpixel blank img x y).
Proof.
  unfold getpixel, map_image. simpl.
  change (@nil pixel') with (map f []). by rewrite !map_nth.
Qed.

Lemma crop_map_image img box :
  crop (f blank) (map_image f img) box
  = match crop blank img box with
    | Ok t => Ok (map_image f t)
    | Raise e => Raise e
    end.
Proof.
  destruct box as [[[l u] r] b]. unfold crop.
  destruct (r <? l); [done|]. destruct (b <? u); [done|].
  unfold map_image at 2. simpl. do 2 f_equal.
  rewrite map_map. apply map_ext. intros y.
  rewrite map_map. apply map_ext. intros x. apply getpixel_map_image.
Qed.

(** X6: trimming looks at the alpha channel only: changing the pixels in
    a way that keeps every alpha value changes neither the box nor the
    order of things; the result is the trimmed image changed in the same
    way. *)
Theorem trim_commutes_with_recolouring img :
  trim_transparent_edges alpha' (f blank) (map_image f img)
  = match trim_transparent_edges alpha blank img with
    | Ok t => Ok (map_image f t)
    | Raise e => Raise e
    end.
Proof.
  unfold trim_transparent_edges, non_transparent_rows, non_transparent_cols.
  rewrite alpha_channel_map_image.
  change (width (map_image f img)) with (width img).
  destruct (negb _); [done|].
  destruct (index_first _) as [top|]; [|done].
  destruct (index_last _) as [bottom|]; [|done].
  destruct (index_first _) as [left_|]; [|done].
  destruct (index_last _) as [right_|]; [|done].
  apply crop_map_image.
Qed.

End Recolouring.

(** * Further properties of the batch routine *)

(** ** Which names are listed *)

Lemma string_length_append (a b : string) :
  String.length (a +:+ b) = String.length a + String.length b.
Proof. induction a as [|c a IH]; simpl; [done|]. by rewrite IH. Qed.

Lemma substring_whole (s : string) :
  String.substring 0 (String.length s) s = s.
Proof. induction s as [|c s IH]; simpl; [done|]. by rewrite IH. Qed.

Lemma substring_after (a b : string) :
  String.substring (String.length a) (String.length b) (a +:+ b) = b.
Proof. induction a as [|c a IH]; simpl; [apply substring_whole|done]. Qed.

Lemma substring_split (s : string) (n : nat) :
  n ≤ String.length s →
  s = String.substring 0 n s +:+ String.substring n (String.length s - n) s.
Proof.
  revert n. induction s as [|c s IH]; intros n Hn; simpl in *.
  - by destruct n.
  - destruct n as [|n]; simpl.
    + by rewrite substring_whole.
    + change (String c s
              = String c (String.substring 0 n s
                          +:+ String.substring n (String.length s - n) s)).
      f_equal. apply IH. lia.
Qed.

Lemma str_endswith_iff (s suffix : string) :
  str_endswith s suffix = true ↔ ∃ stem, s = stem +:+ suffix.
Proof.
  unfold str_endswith. rewrite andb_true_iff, Nat.leb_le, String.eqb_eq.
  split.
  - intros [Hlen Hsub].
    exists (String.substring 0 (String.length s - String.length suffix) s).
    pose proof (substring_split s (String.length s - String.length suffix)
                  ltac:(lia)) as Hs.
    replace (String.length s - (String.length s - String.length suffix))
      with (String.length suffix) in Hs by lia.
    by rewrite Hsub in Hs.
  - intros [stem ->]. rewrite string_length_append. split; [lia|].
    replace (String.length stem + String.length suffix - String.length suffix)
      with (String.length stem) by lia.
    apply substring_after.
Qed.

Lemma str_lower_append (a b : string) :
  str_lower (a +:+ b) = str_lower a +:+ str_lower b.
Proof. induction a as [|c a IH]; simpl; [done|]. by rewrite IH. Qed.

Lemma str_lower_split (s a' b' : string) :
  str_lower s = a' +:+ b' →
  ∃ a b, s = a +:+ b ∧ str_lower a = a' ∧ str_lower b = b'.
Proof.
  revert s. induction a' as [|c a' IH]; intros s; simpl.
  - intros H. by exists EmptyString, s.
  - destruct s as [|d s]; simpl; [done|]. intros [= Hc Hrest].
    destruct (IH s Hrest) as (a & b & -> & Ha & Hb).
    exists (String d a), b. simpl. by rewrite Hc, Ha.
Qed.

(** X7: a name is kept by the filter of line 65 exactly when it ends in an
    extension that is ".png" up to the case of its letters; nothing is asked
    of what comes before the extension, which may be empty. *)
Theorem is_png_iff (f : string) :
  is_png f = true
  ↔ ∃ stem ext, f = stem +:+ ext ∧ str_lower ext = ".png"%string.
Proof.
  unfold is_png. rewrite str_endswith_iff. split.
  - intros [stem' (stem & ext & -> & _ & Hext)%str_lower_split]. eauto.
  - intros (stem & ext & -> & Hext). exists (str_lower stem).
    by rewrite str_lower_append, Hext.
Qed.

(** X8: the listing of lines 64-72 never raises and changes nothing on
    disk; the list it hands to the loop is not empty, names no entry twice,
    and holds exactly the names of the folder's immediate entries that pass
    the filter; it hands over nothing when the folder cannot be listed or
    has no such entry. *)
Theorem list_png_files_lists_exactly target_folder w :
  ∃ listing w',
    list_png_files target_folder w = (Ok listing, w')
    ∧ disk w' = disk w
    ∧ match listing with
      | Some png_files =>
          png_files ≠ [] ∧ NoDup png_files
          ∧ ∀ name, name ∈ png_files
                    ↔ is_png name = true
                      ∧ is_Some (disk w !! os_path_join target_folder name)
      | None =>
          isdir (disk w) target_folder = false
          ∨ ∀ name, is_png name = true →
                    disk w !! os_path_join target_folder name = None
      end.
Proof.
  destruct (isdir (disk w) target_folder) eqn:Hdir.
  - rewrite list_png_files_spec by done. case_bool_decide as Hnil.
    + eexists None, _. split_and!; [done..|]. right. intros name Hpng.
      destruct (disk w !! os_path_join target_folder name) as [n|] eqn:Hn;
        [|done].
      assert (Hin : name ∈ png_entries (disk w) target_folder)
        by (apply png_entries_complete; eauto).
      rewrite Hnil in Hin. by apply elem_of_nil in Hin.
    + eexists (Some _), _. split_and!; [done..| |].
      * apply NoDup_png_entries.
      * intros name. split; [apply elem_of_png_entries|].
        intros [? ?]. by apply png_entries_complete.
  - unfold list_png_files, os_listdir. io_unfold.
    unfold isdir in Hdir.
    destruct (node_at (disk w) target_folder) as [[|]|]; try done;
      eexists None, _; (split_and!; [done..|by left]).
Qed.

(** ** The backup folder *)

Lemma ensure_backup_folder_creates backup_folder w :
  node_at (disk w) backup_folder = None →
  isdir (disk w) (dirname backup_folder) = true →
  ensure_backup_folder backup_folder w
  = (Ok tt, mkWorld (<[backup_folder := Dir]> (disk w))
              (console w ++ [InfoBackupCreated backup_folder])).
Proof.
  intros Hnone Hpar.
  unfold ensure_backup_folder, os_makedirs. io_unfold.
  unfold isdir at 1. rewrite Hnone. simpl.
  destruct backup_folder as [|a p] eqn:Eb; [done|]. rewrite <- Eb in *.
  replace (length backup_folder) with (Datatypes.S (length p))
    by (by rewrite Eb).
  simpl. io_unfold.
  assert (Hex : exists_ (disk w) (dirname backup_folder) = true).
  { unfold isdir in Hpar. unfold exists_.
    by destruct (node_at (disk w) (dirname backup_folder)) as [[|]|]. }
  rewrite Hex, andb_false_r. unfold os_mkdir. io_unfold.
  unfold isdir in Hpar. rewrite Hnone.
  by destruct (node_at (disk w) (dirname backup_folder)) as [[|]|].
Qed.

(** X9: ensuring the backup folder never removes or changes an entry, it
    can only add directories; it does nothing when the folder is there;
    when it returns normally the folder is there; and when only the folder
    itself is missing, it is the one entry added. *)
Theorem backup_folder_is_ensured backup_folder w :
  let out := ensure_backup_folder backup_folder w in
  only_adds_dirs (disk w) (disk out.2)
  ∧ (isdir (disk w) backup_folder = true → out = (Ok tt, w))
  ∧ (out.1 = Ok tt → isdir (disk out.2) backup_folder = true)
  ∧ (node_at (disk w) backup_folder = None →
     isdir (disk w) (dirname backup_folder) = true →
     out = (Ok tt, mkWorld (<[backup_folder := Dir]> (disk w))
                     (console w ++ [InfoBackupCreated backup_folder]))).
Proof.
  intros out.
  destruct (ensure_backup_folder backup_folder w) as [r w1] eqn:Hout.
  destruct (ensure_backup_folder_inv _ _ _ _ Hout) as (Hadds & Hsame & Hnew).
  apply only_creates_folder_adds in Hadds.
  subst out. simpl. split_and!; [done| | |].
  - intros [-> ->]%Hsame. done.
  - intros H. by apply Hnew.
  - intros Hnone Hpar. rewrite <- Hout.
    by apply ensure_backup_folder_creates.
Qed.

Section BatchMore.
Context {pixel : Type} (P : imaging pixel).
Context (target_folder backup_folder : path).
Context (target_width target_height : Z).

Local Abbreviation original_path f := (os_path_join target_folder f).
Local Abbreviation backup_path f := (os_path_join backup_folder f).
Local Abbreviation sys := (im_platform P).
Local Abbreviation try_file :=
  (attempt P target_folder backup_folder target_width target_height).
Local Abbreviation process :=
  (process_file P target_folder backup_folder target_width target_height).
Local Abbreviation run :=
  (resize_replace_and_backup P target_folder backup_folder
     target_width target_height).

(** X10: an exception can leave the routine in two places only: from
    [os.makedirs] while the backup folder is created, and from the [print]
    of a line that shows the name of a listed file the console cannot
    encode; the listing and the steps on every file are inside [try]
    blocks. *)
Theorem only_makedirs_and_print_can_raise w :
  (∃ w', run w = (Ok tt, w'))
  ∨ (∃ e w1,
       isdir (disk w) target_folder = true
       ∧ isdir (disk w) backup_folder = false
       ∧ os_makedirs backup_folder w = (Raise e, w1)
       ∧ run w = (Raise e, w1))
  ∨ (∃ w1 w' f,
       ensure_backup_folder backup_folder w = (Ok tt, w1)
       ∧ f ∈ png_entries (disk w1) target_folder
       ∧ out_encodes (im_platform P) f = false
       ∧ run w = (Raise UnicodeEncodeError, w')).
Proof.
  destruct (isdir (disk w) target_folder) eqn:Htarget.
  2: { left. rewrite run_unfold, Htarget. unfold print. eauto. }
  destruct (ensure_backup_folder backup_folder w) as [[[]|e] w1] eqn:Hensure.
  - rewrite run_unfold, Htarget, Hensure.
    destruct (ensure_backup_folder_inv _ _ _ _ Hensure) as (Hadds & _ & _).
    apply only_creates_folder_adds in Hadds.
    rewrite list_png_files_spec by (by eapply only_adds_dirs_isdir).
    case_bool_decide as Hnil; [left; eauto|].
    destruct (for_each _ process _) as [r w3] eqn:Hloop.
    destruct (for_each_result P _ _ _ _ _ _ _ _ Hloop)
      as [->|(-> & f & Hf & Henc)].
    + left. unfold print. eauto.
    + right. right. exists w1, w3, f. done.
  - right. left. exists e, w1. rewrite run_unfold, Htarget, Hensure.
    unfold ensure_backup_folder in Hensure. io_unfold.
    destruct (isdir (disk w) backup_folder); simpl in Hensure; [done|].
    destruct (os_makedirs backup_folder w) as [[[]|e'] w0]; [done|].
    by injection Hensure as -> ->.
Qed.

(** X11: a regular file at the backup folder's path stops the routine with
    an uncaught [FileExistsError] before anything is listed, moved or
    printed. *)
Theorem backup_folder_path_taken_by_file w content :
  isdir (disk w) target_folder = true →
  node_at (disk w) backup_folder = Some (File content) →
  exists_ (disk w) (dirname backup_folder) = true →
  run w = (Raise FileExistsError, w).
Proof.
  intros Htarget Hnode Hparent. rewrite run_unfold, Htarget.
  unfold ensure_backup_folder. io_unfold.
  unfold isdir. rewrite Hnode. simpl.
  by rewrite (os_makedirs_on_file _ _ _ Hnode Hparent).
Qed.

(** Processing a regular file touches its original path, its backup path
    and, when the backup path is a directory, the entry of the same name
    inside it; nothing else. *)
Lemma process_file_frame g content w q :
  disk w !! original_path g = Some (File content) →
  q ≠ original_path g → q ≠ backup_path g →
  q ≠ os_path_join (backup_path g) g →
  disk (process g w).2 !! q = disk w !! q.
Proof.
  intros Hfile Hq1 Hq2 Hq3. rewrite process_file_disk.
  destruct (try_file g w) as [r w'] eqn:Hrun. simpl.
  assert (Hq : q ≠ real_dst_of (disk w) (original_path g) (backup_path g)).
  { unfold real_dst_of. rewrite basename_join. by destruct (isdir _ _). }
  destruct (attempt_on_file P _ _ _ _ g content w r w' Hfile Hrun)
    as [(e & _ & -> & _)
       |[(e & bytes & _ & _ & _ & _ & _ & ->)
        |[(e & _ & _ & _ & _ & _ & ->)
         |[(e & w1 & written & _ & _ & _ & _ & _ & ->)
          |(w1 & rz & written & _ & _ & _ & _ & _ & _ & _ & Hd1 & ->)]]]];
    try rewrite Hd1.
  - done.
  - by rewrite lookup_insert_ne.
  - by rewrite lookup_insert_ne, lookup_delete_ne.
  - by rewrite !lookup_insert_ne, lookup_delete_ne.
  - by rewrite !lookup_insert_ne, lookup_delete_ne.
Qed.

Lemma for_each_frame files w r w' q :
  NoDup files →
  (∀ g, g ∈ files → ∃ c, disk w !! original_path g = Some (File c)) →
  for_each files process w = (r, w') →
  (∀ g, g ∈ files →
        q ≠ original_path g ∧ q ≠ backup_path g
        ∧ q ≠ os_path_join (backup_path g) g) →
  disk w' !! q = disk w !! q.
Proof.
  revert w. induction files as [|g rest IH]; intros w Hnd Hfiles; simpl.
  { by intros [= <- <-]. }
  apply NoDup_cons in Hnd as [Hg Hnd].
  unfold bind. destruct (process g w) as [rg wg] eqn:Hrun.
  intros Hloop Hq.
  destruct (Hfiles g) as [cg Hcg]; [left|].
  destruct (Hq g) as (? & ? & ?); [left|].
  assert (Hstep : ∀ q', q' ≠ original_path g → q' ≠ backup_path g →
                        q' ≠ os_path_join (backup_path g) g →
                        disk wg !! q' = disk w !! q').
  { intros q' ? ? ?.
    pose proof (process_file_frame g cg w q' Hcg) as Hf.
    rewrite Hrun in Hf. auto. }
  destruct rg as [[]|e].
  - rewrite (IH wg); [by apply Hstep|done| |done|].
    + intros h Hh. destruct (Hfiles h) as [ch Hch]; [by right|].
      exists ch. rewrite Hstep; [done|..];
        intros [_ ->]%join_inj; done.
    + intros h Hh. apply Hq. by right.
  - injection Hloop as _ <-. by apply Hstep.
Qed.

(** X12: the run leaves alone every path whose last component does not
    pass the filter: text files and other non-PNG entries of the source
    folder, and everything in the backup folder that is not the backup of a
    listed name, are as they were once the backup folder was in place (the
    listed entries being regular files). *)
Theorem run_leaves_other_paths_alone w w1 r w' q :
  isdir (disk w) target_folder = true →
  ensure_backup_folder backup_folder w = (Ok tt, w1) →
  (∀ g, g ∈ png_entries (disk w1) target_folder →
        ∃ c, disk w1 !! original_path g = Some (File c)) →
  run w = (r, w') →
  is_png (basename q) = false →
  disk w' !! q = disk w1 !! q.
Proof.
  intros Htarget Hensure Hfiles Hrun Hq.
  rewrite run_unfold, Htarget, Hensure in Hrun.
  destruct (ensure_backup_folder_inv _ _ _ _ Hensure) as (Hadds & _ & _).
  apply only_creates_folder_adds in Hadds.
  rewrite list_png_files_spec in Hrun by (by eapply only_adds_dirs_isdir).
  case_bool_decide as Hnil; [by injection Hrun as _ <-|].
  set (files := png_entries (disk w1) target_folder) in *.
  set (w2 := mkWorld (disk w1) (console w1 ++ [InfoCount (length files)])) in *.
  destruct (for_each files process w2) as [r3 w3] eqn:Hloop.
  assert (Hframe : disk w3 !! q = disk w2 !! q).
  { apply (for_each_frame files w2 r3 w3 q).
    - apply NoDup_png_entries.
    - exact Hfiles.
    - exact Hloop.
    - intros g [Hpng _]%elem_of_png_entries.
      split_and!; intros ->; rewrite basename_join in Hq; congruence. }
  destruct r3 as [[]|e]; injection Hrun as _ <-; exact Hframe.
Qed.

(** *** What becomes of a single file *)

(** A regular file whose backup path is free or holds a regular file, and
    which the platform renames, is moved there; what follows depends on the
    bytes and the name alone. *)
Lemma process_file_direct f content w :
  target_folder ≠ backup_folder →
  isdir (disk w) target_folder = true →
  isdir (disk w) backup_folder = true →
  disk w !! original_path f = Some (File content) →
  isdir (disk w) (backup_path f) = false →
  rename_refused sys (original_path f) (backup_path f) = false →
  let moved := <[backup_path f := File content]>
                 (delete (original_path f) (disk w)) in
  let failed e :=
    print_name sys f (FileError f e) (mkWorld moved (console w)) in
  process f w
  = match pipeline P target_width target_height content with
    | Raise e => failed e
    | Ok resized_img =>
        match pil_format f with
        | Raise e => failed e
        | Ok _ =>
            match im_encode P resized_img with
            | (_, Some e) => failed e
            | (written, None) =>
                print_name sys f (FileDone f)
                  (mkWorld (<[original_path f := File written]> moved)
                           (console w))
            end
        end
    end.
Proof.
  intros Hdiff Htarget Hbackup Hfile Hnd Href moved failed.
  assert (Hob : original_path f ≠ backup_path f)
    by (intros [? _]%join_inj; done).
  assert (Hmove : shutil_move sys (original_path f) (backup_path f) w
                  = (Ok (backup_path f), mkWorld moved (console w))).
  { unfold shutil_move, move_to, os_rename. io_unfold. rewrite Hnd.
    rewrite !node_at_join, Hfile, Href, dirname_join, Hbackup.
    unfold isdir in Hnd. rewrite node_at_join in Hnd.
    by destruct (disk w !! backup_path f) as [[|]|]. }
  assert (Hdir : isdir moved target_folder = true).
  { apply isdir_insert_delete_other; [done| |apply join_ne_folder].
    intros Heq. rewrite Heq in Hnd. congruence. }
  rewrite process_file_print. unfold attempt, bind. rewrite Hmove.
  rewrite (transform_backup_vacant P target_width target_height
             (original_path f) (backup_path f) content).
  - rewrite basename_join. unfold failed.
    destruct (pipeline _ _ _ _) as [rz|e]; [|done].
    destruct (pil_format f) as [[]|e]; [|done].
    by destruct (im_encode P rz) as [written [e|]].
  - rewrite node_at_join. cbn [disk]. unfold moved.
    by rewrite lookup_insert_eq.
  - rewrite node_at_join. cbn [disk]. unfold moved.
    by rewrite lookup_insert_ne, lookup_delete_eq.
  - by rewrite dirname_join.
Qed.

(** X13: a backup of the same name left by an earlier run is replaced by
    the bytes now moved, whatever the later steps do, and the file gets its
    one line and no warning (the platform renaming the file). *)
Theorem earlier_backup_is_replaced f content old w :
  target_folder ≠ backup_folder →
  isdir (disk w) target_folder = true →
  isdir (disk w) backup_folder = true →
  disk w !! original_path f = Some (File content) →
  disk w !! backup_path f = Some (File old) →
  rename_refused (im_platform P) (original_path f) (backup_path f) = false →
  ∃ d' line,
    process f w = print_name (im_platform P) f line (mkWorld d' (console w))
    ∧ (line = FileDone f ∨ ∃ e, line = FileError f e)
    ∧ d' !! backup_path f = Some (File content).
Proof.
  intros Hdiff Htarget Hbackup Hfile Hold Href.
  assert (Hnd : isdir (disk w) (backup_path f) = false)
    by (unfold isdir; by rewrite node_at_join, Hold).
  assert (Hob : original_path f ≠ backup_path f)
    by (intros [? _]%join_inj; done).
  rewrite (process_file_direct f content w
             Hdiff Htarget Hbackup Hfile Hnd Href).
  destruct (pipeline _ _ _ _) as [rz|e].
  - destruct (pil_format f) as [[]|e].
    + destruct (im_encode P rz) as [written [e|]];
        eexists _, _; (split_and!; [done| |]); eauto.
      * by rewrite lookup_insert_eq.
      * rewrite lookup_insert_ne by done. by rewrite lookup_insert_eq.
    + eexists _, _. split_and!; [done|eauto|]. by rewrite lookup_insert_eq.
  - eexists _, _. split_and!; [done|eauto|]. by rewrite lookup_insert_eq.
Qed.

(** X14: with a directory at the backup path the file is moved inside that
    directory and then reported as failed, for the directory cannot be
    opened as an image; when the directory already holds an entry of that
    name the move is refused and nothing changes (the platform renaming the
    file). *)
Theorem backup_path_is_a_directory f content w :
  disk w !! original_path f = Some (File content) →
  disk w !! backup_path f = Some Dir →
  rename_refused (im_platform P)
    (original_path f) (os_path_join (backup_path f) f) = false →
  process f w
  = match disk w !! os_path_join (backup_path f) f with
    | None =>
        print_name (im_platform P) f (FileError f IsADirectoryError)
          (mkWorld (<[os_path_join (backup_path f) f := File content]>
                      (delete (original_path f) (disk w)))
                   (console w))
    | Some _ => print_name (im_platform P) f (FileError f ShutilError) w
    end.
Proof.
  intros Hfile Hdir Href.
  assert (Hob : original_path f ≠ backup_path f) by congruence.
  assert (Hmove :
    shutil_move sys (original_path f) (backup_path f) w
    = match disk w !! os_path_join (backup_path f) f with
      | None =>
          (Ok (os_path_join (backup_path f) f),
           mkWorld (<[os_path_join (backup_path f) f := File content]>
                      (delete (original_path f) (disk w))) (console w))
      | Some _ => (Raise ShutilError, w)
      end).
  { unfold shutil_move, move_to, os_rename. io_unfold.
    unfold isdir at 1. rewrite node_at_join, Hdir.
    rewrite bool_decide_eq_false_2 by done.
    rewrite basename_join. unfold exists_. rewrite node_at_join.
    destruct (disk w !! os_path_join (backup_path f) f) eqn:Hin; [done|].
    rewrite !node_at_join, Hfile, Href, Hin, dirname_join.
    unfold isdir. by rewrite node_at_join, Hdir. }
  rewrite process_file_print. unfold attempt, bind. rewrite Hmove.
  destruct (disk w !! os_path_join (backup_path f) f) eqn:Hin; [done|].
  unfold transform_backup, image_open. io_unfold.
  rewrite node_at_join. cbn [disk console].
  rewrite lookup_insert_ne, lookup_delete_ne, Hdir; [done|done|].
  apply join_ne_folder.
Qed.

(** X15: when a step after the move fails (the bytes do not decode, the
    size is refused, the name gives [save] no format, or the encoder
    raises) the disk is left exactly as the move left it: the bytes at the
    backup path, nothing at the original path, no partial output anywhere;
    the line names the exception (the platform renaming the file). *)
Theorem failure_after_move_leaves_backup_only f content e w :
  target_folder ≠ backup_folder →
  isdir (disk w) target_folder = true →
  isdir (disk w) backup_folder = true →
  disk w !! original_path f = Some (File content) →
  isdir (disk w) (backup_path f) = false →
  rename_refused (im_platform P) (original_path f) (backup_path f) = false →
  pipeline P target_width target_height content = Raise e
  ∨ (∃ resized_img,
       pipeline P target_width target_height content = Ok resized_img
       ∧ pil_format f = Raise e)
  ∨ (∃ resized_img written,
       pipeline P target_width target_height content = Ok resized_img
       ∧ pil_format f = Ok tt
       ∧ im_encode P resized_img = (written, Some e)) →
  process f w
  = print_name (im_platform P) f (FileError f e)
      (mkWorld (<[backup_path f := File content]>
                  (delete (original_path f) (disk w)))
               (console w)).
Proof.
  intros Hdiff Htarget Hbackup Hfile Hnd Href Hfail.
  rewrite (process_file_direct f content w
             Hdiff Htarget Hbackup Hfile Hnd Href).
  destruct Hfail as [->|[(rz & -> & ->)|(rz & written & -> & -> & ->)]]; done.
Qed.

End BatchMore.

(** A trimmed image is not empty when the input is not. *)
Lemma trim_size_positive {pixel} (alpha : pixel → Z) blank img t :
  0 < width img → 0 < height img →
  trim_transparent_edges alpha blank img = Ok t →
  0 < width t ∧ 0 < height t.
Proof.
  intros Hw Hh Ht.
  destruct (trim_cases alpha blank img)
    as [(_ & H & _)|(l & u & r & b & _ & Hl & Hr & Hu & Hb & H & _)];
    rewrite H in Ht.
  - by injection Ht as <-.
  - pose proof (cols_bounds alpha _ _ _ _ Hl Hr (last_in_cols alpha _ _ Hr)).
    pose proof (rows_bounds alpha _ _ _ _ Hu Hb (last_in_rows alpha _ _ Hb)).
    apply crop_inv in Ht as (? & ? & -> & -> & _). lia.
Qed.

(** X16: with a target width or height below 1 no image is ever produced:
    whatever decodes to a non-empty image is refused by the resize, with a
    [ValueError] when both numbers are in the range of a C [int] and with an
    [OverflowError] when one is not. *)
Theorem target_size_below_one_is_refused {pixel} (P : imaging pixel)
    (target_width target_height : Z) content img :
  (target_width < 1 ∨ target_height < 1)%Z →
  im_decode P content = Ok img →
  0 < width img → 0 < height img →
  pipeline P target_width target_height content
  = Raise (if c_int target_width && c_int target_height
           then ValueError else OverflowError).
Proof.
  intros Hsmall Hdec Hw Hh. unfold pipeline. rewrite Hdec. simpl.
  destruct (trim_total (px_alpha P) (px_blank P) img) as [t Ht].
  rewrite Ht. simpl.
  destruct (trim_size_positive _ _ _ _ Hw Hh Ht) as [Hwt Hht].
  unfold resize. rewrite bool_decide_eq_false_2.
  - destruct (c_int target_width && c_int target_height); [|done]. simpl.
    destruct Hsmall as [H|H]; apply Z.ltb_lt in H; rewrite H;
      [done|by rewrite orb_true_r].
  - intros [= <- <-]. lia.
Qed.

(** ** Entries that are not regular files *)

Section Entries.
Context {pixel : Type} (P : imaging pixel).
Context (target_folder backup_folder : path).
Context (target_width target_height : Z).

Local Abbreviation original_path f := (os_path_join target_folder f).
Local Abbreviation backup_path f := (os_path_join backup_folder f).
Local Abbreviation sys := (im_platform P).
Local Abbreviation process :=
  (process_file P target_folder backup_folder target_width target_height).

(** X18: a name with nothing behind it on disk is reported as failed with
    the exception [shutil.move] raised, and nothing is changed: the
    [FileNotFoundError] of the copy that follows the failed rename, or the
    error of [shutil.move] itself when the backup path is a directory that
    holds an entry of that name. *)
Theorem missing_entry_is_reported f w :
  disk w !! os_path_join target_folder f = None →
  process_file P target_folder backup_folder target_width target_height f w
  = print_name (im_platform P) f
      (FileError f
         (if isdir (disk w) (os_path_join backup_folder f)
             && exists_ (disk w)
                  (os_path_join (os_path_join backup_folder f) f)
          then ShutilError else FileNotFoundError))
      w.
Proof.
  intros Hnone. rewrite process_file_print.
  by rewrite attempt_on_missing.
Qed.


End Entries.

(** * The further properties on sample inputs *)

Lemma wf_framed : wf_image framed.
Proof. split; [reflexivity|repeat constructor]. Qed.

Lemma trim_is_tight_past_guard_witness :
  ∃ t, trim_transparent_edges chan_a clear framed = Ok t
       ∧ has_content chan_a t (λ _ y, y = 0)
       ∧ has_content chan_a t (λ x _, x = width t - 1).
Proof.
  assert (H1 : has_content chan_a framed (λ _ y, 0 < y))
    by (exists 1, 1, solid; split_and!; [reflexivity|reflexivity|lia]).
  assert (H2 : has_content chan_a framed (λ x _, 0 < x))
    by (exists 1, 1, solid; split_and!; [reflexivity|reflexivity|lia]).
  destruct (trim_is_tight_past_guard chan_a clear framed wf_framed H1 H2)
    as (t & Ht & _ & Hfirst & _ & _ & Hlast).
  exists t. split_and!; [exact Ht|exact Hfirst|exact Hlast].
Defined.

Lemma trim_skips_first_row_or_column_content_witness :
  trim_transparent_edges chan_a clear corner = Ok corner.
Proof.
  apply trim_skips_first_row_or_column_content. left.
  intros x y p Hat Hp.
  destruct y as [|[|y]]; [reflexivity| |];
    destruct x as [|[|x]]; vm_compute in Hat; try discriminate;
    injection Hat as <-; vm_compute in Hp; discriminate.
Defined.

Lemma trim_keeps_grid_witness :
  wf_image (mkImage 2 1 [[solid; solid]])
  ∧ (0 < 3 → 0 < 3 → 0 < 2 ∧ 0 < 1).
Proof.
  assert (Ht : trim_transparent_edges chan_a clear framed
               = Ok (mkImage 2 1 [[solid; solid]])) by reflexivity.
  exact (trim_keeps_grid chan_a clear framed _ wf_framed Ht).
Defined.

Lemma trim_fixes_images_with_content_on_every_edge_witness :
  trim_transparent_edges chan_a clear filled = Ok filled.
Proof.
  assert (Hwf : wf_image filled) by (split; [reflexivity|repeat constructor]).
  apply trim_fixes_images_with_content_on_every_edge; [exact Hwf|..].
  - exists 0, 0, solid. split_and!; reflexivity.
  - exists 0, 1, solid. split_and!; reflexivity.
  - exists 0, 0, solid. split_and!; reflexivity.
  - exists 1, 0, solid. split_and!; reflexivity.
Defined.

Lemma trim_commutes_with_recolouring_witness :
  trim_transparent_edges chan_a (alpha_only clear)
    (map_image alpha_only framed)
  = Ok (map_image alpha_only (mkImage 2 1 [[solid; solid]])).
Proof.
  assert (Hkeep : ∀ p, chan_a (alpha_only p) = chan_a p) by reflexivity.
  exact (trim_commutes_with_recolouring alpha_only chan_a chan_a clear
           Hkeep framed).
Defined.

Lemma backup_folder_path_taken_by_file_witness :
  resize_replace_and_backup toy originals used 4 2 blocked
  = (Raise FileExistsError, blocked).
Proof.
  assert (H1 : isdir (disk blocked) originals = true) by reflexivity.
  assert (H2 : node_at (disk blocked) used = Some (File corrupt_bytes))
    by (vm_compute; reflexivity).
  assert (H3 : exists_ (disk blocked) (dirname used) = true) by reflexivity.
  exact (backup_folder_path_taken_by_file toy originals used 4 2
           blocked corrupt_bytes H1 H2 H3).
Defined.

Lemma run_leaves_other_paths_alone_witness :
  disk (resize_replace_and_backup toy originals used 4 2 three_files).2
    !! (originals ++ ["notes.txt"%string])
  = Some (File corrupt_bytes).
Proof.
  assert (H1 : isdir (disk three_files) originals = true) by reflexivity.
  assert (H2 : ensure_backup_folder used three_files
               = (Ok tt, three_files_ready)) by (vm_compute; reflexivity).
  assert (Hlist : png_entries (disk three_files_ready) originals
                  = ["c.png"; "a.png"; "b.PNG"]%string)
    by (vm_compute; reflexivity).
  assert (H3 : ∀ g, g ∈ png_entries (disk three_files_ready) originals →
            ∃ c, disk three_files_ready !! os_path_join originals g
                 = Some (File c)).
  { rewrite Hlist. intros g Hg.
    apply elem_of_cons in Hg as [->|Hg]; [by eexists|].
    apply elem_of_cons in Hg as [->|Hg]; [by eexists|].
    apply list_elem_of_singleton in Hg as ->. by eexists. }
  assert (H4 : is_png (basename (originals ++ ["notes.txt"%string])) = false)
    by reflexivity.
  rewrite (run_leaves_other_paths_alone toy originals used 4 2
             three_files three_files_ready _ _
             (originals ++ ["notes.txt"%string]) H1 H2 H3
             (surjective_pairing _) H4).
  vm_compute. reflexivity.
Defined.

Lemma earlier_backup_is_replaced_witness :
  ∃ d' line,
    process_file toy originals used 4 2 "a.png" second_run
    = (Ok tt, mkWorld d' (console second_run ++ [line]))
    ∧ d' !! os_path_join used "a.png" = Some (File framed_bytes).
Proof.
  assert (H1 : isdir (disk second_run) originals = true) by reflexivity.
  assert (H2 : isdir (disk second_run) used = true)
    by (vm_compute; reflexivity).
  assert (H3 : disk second_run !! os_path_join originals "a.png"
               = Some (File framed_bytes)) by (vm_compute; reflexivity).
  assert (H4 : disk second_run !! os_path_join used "a.png"
               = Some (File corrupt_bytes)) by (vm_compute; reflexivity).
  assert (H5 : rename_refused (im_platform toy)
                 (os_path_join originals "a.png") (os_path_join used "a.png")
               = false) by reflexivity.
  destruct (earlier_backup_is_replaced toy originals used 4 2 "a.png"
              framed_bytes corrupt_bytes second_run
              originals_ne_used H1 H2 H3 H4 H5)
    as (d' & line & Hrun & _ & Hb).
  exists d', line. split; [exact Hrun|exact Hb].
Defined.

Lemma backup_path_is_a_directory_witness :
  console (process_file toy originals used 4 2 "a.png"
             directory_in_the_way).2
  = [FileError "a.png" IsADirectoryError].
Proof.
  assert (H1 : disk directory_in_the_way !! os_path_join originals "a.png"
               = Some (File framed_bytes)) by (vm_compute; reflexivity).
  assert (H2 : disk directory_in_the_way !! os_path_join used "a.png"
               = Some Dir) by (vm_compute; reflexivity).
  assert (H3 : rename_refused (im_platform toy)
                 (os_path_join originals "a.png")
                 (os_path_join (os_path_join used "a.png") "a.png")
               = false) by reflexivity.
  rewrite (backup_path_is_a_directory toy originals used 4 2 "a.png"
             framed_bytes directory_in_the_way H1 H2 H3).
  vm_compute. reflexivity.
Defined.

Lemma failure_after_move_leaves_backup_only_witness :
  process_file toy originals used 4 2 "b.PNG" three_files_ready
  = (Ok tt,
     mkWorld (<[os_path_join used "b.PNG" := File corrupt_bytes]>
                (delete (os_path_join originals "b.PNG")
                   (disk three_files_ready)))
             (console three_files_ready
              ++ [FileError "b.PNG" UnidentifiedImageError])).
Proof.
  assert (H1 : isdir (disk three_files_ready) originals = true)
    by (vm_compute; reflexivity).
  assert (H2 : isdir (disk three_files_ready) used = true)
    by (vm_compute; reflexivity).
  assert (H3 : disk three_files_ready !! os_path_join originals "b.PNG"
               = Some (File corrupt_bytes)) by (vm_compute; reflexivity).
  assert (H4 : isdir (disk three_files_ready) (os_path_join used "b.PNG")
               = false) by (vm_compute; reflexivity).
  assert (H5 : rename_refused (im_platform toy)
                 (os_path_join originals "b.PNG") (os_path_join used "b.PNG")
               = false) by reflexivity.
  assert (H6 : pipeline toy 4 2 corrupt_bytes = Raise UnidentifiedImageError)
    by reflexivity.
  exact (failure_after_move_leaves_backup_only toy originals used 4 2
           "b.PNG" corrupt_bytes UnidentifiedImageError three_files_ready
           originals_ne_used H1 H2 H3 H4 H5 (or_introl H6)).
Defined.

Lemma target_size_below_one_is_refused_witness :
  pipeline toy 0 2796 framed_bytes = Raise ValueError
  ∧ pipeline toy 0 2147483648 framed_bytes = Raise OverflowError.
Proof.
  assert (H1 : (0 < 1 ∨ 2796 < 1)%Z) by (left; lia).
  assert (H1' : (0 < 1 ∨ 2147483648 < 1)%Z) by (left; lia).
  assert (H2 : im_decode toy framed_bytes = Ok framed)
    by (vm_compute; reflexivity).
  assert (H3 : 0 < width framed) by (simpl; lia).
  assert (H4 : 0 < height framed) by (simpl; lia).
  split.
  - exact (target_size_below_one_is_refused toy 0 2796 framed_bytes framed
             H1 H2 H3 H4).
  - exact (target_size_below_one_is_refused toy 0 2147483648 framed_bytes
             framed H1' H2 H3 H4).
Defined.

Lemma missing_entry_is_reported_witness :
  process_file toy originals used 4 2 "x.png" bare
  = (Ok tt,
     mkWorld (disk bare)
       (console bare ++ [FileError "x.png" FileNotFoundError])).
Proof.
  assert (H : disk bare !! os_path_join originals "x.png" = None)
    by reflexivity.
  exact (missing_entry_is_reported toy originals used 4 2 "x.png" bare H).
Defined.

